(** * GDBotDatabase: the checksum helpers and the [Database] class of
      [database.py], embedded in Rocq.

    Python values are modelled as follows.
    - [bytes] is a list of [Byte.byte]; an [int] that is about to be packed
      into a [bytes] object is an [N], and the constructor [bytes(...)]
      checks the range 0..255 as Python does.
    - [str] is a list of Unicode code points ([N]).
    - A call either returns a value or raises: [outcome].
    - A [Database] object is a record with its [initalized] flag; what
      SQLAlchemy does behind an open session is an interface, [Orm]. *)

From Stdlib Require Import List NArith ZArith Lia Bool.
From Stdlib.Strings Require Import String Ascii Byte.
From Stdlib Require Import DecimalString.
Import ListNotations.

Set Implicit Arguments.

(** ** Outcomes of Python calls *)

Inductive exn : Type :=
| ValueError            (* tuple unpacking, bytes() range, urlparse *)
| AttributeError        (* attribute missing on an object, or on None *)
| UnicodeEncodeError    (* str.encode("utf-8") on a lone surrogate *)
| BinasciiError         (* base64 decoding *)
| MultipleResultsFound  (* Result.one_or_none() on two or more rows *)
| NoSuchModuleError     (* create_engine: no dialect of that name *)
| ArgumentError         (* create_engine: the url cannot be parsed *)
| TypeError.            (* a call that misses a required argument *)

Inductive outcome (A : Type) : Type :=
| Returns (a : A)
| Raises (e : exn).

Arguments Returns {A} a.
Arguments Raises {A} e.

Definition bind {A B : Type} (m : outcome A) (k : A -> outcome B) : outcome B :=
  match m with
  | Returns a => k a
  | Raises e => Raises e
  end.

Declare Scope py_scope.
Delimit Scope py_scope with py.
Notation "x <- m ;; k" := (bind m (fun x => k))
  (at level 61, m at next level, right associativity) : py_scope.
Open Scope py_scope.

(** ** Bytes and strings *)

Definition bytes : Type := list byte.
Definition codepoint : Type := N.
Definition str : Type := list codepoint.

(** Literals: [b"..."] and ["..."] restricted to the characters a Rocq
    string can hold. *)
Definition blit (x : string) : bytes := list_byte_of_string x.
Definition slit (x : string) : str := map Byte.to_N (list_byte_of_string x).
Definition clit (x : byte) : codepoint := Byte.to_N x.

(** [bytes(iterable_of_ints)]: every item must be in [range(0, 256)]. *)
Fixpoint bytes_of_ints (l : list N) : outcome bytes :=
  match l with
  | [] => Returns []
  | n :: l' =>
      match Byte.of_N n with
      | Some x => rest <- bytes_of_ints l' ;; Returns (x :: rest)
      | None => Raises ValueError
      end
  end.

(** ** cyclic_xor (database.py:20) *)

(** [zip(data, itertools.cycle(key))].  The cycle iterator is its state: the
    items still [pending] in the current pass and the [saved] copy it restarts
    from; a cycle over nothing is exhausted at once, and [zip] stops with it. *)
Fixpoint zip_cycle (A B : Type) (data : list A) (pending saved : list B)
  : list (A * B) :=
  match data with
  | [] => []
  | d :: data' =>
      match pending with
      | k :: pending' => (d, k) :: zip_cycle data' pending' saved
      | [] =>
          match saved with
          | [] => []
          | k :: pending' => (d, k) :: zip_cycle data' pending' saved
          end
      end
  end.

Definition xor_int (dk : byte * byte) : N :=
  N.lxor (Byte.to_N (fst dk)) (Byte.to_N (snd dk)).

Definition cyclic_xor (data key : bytes) : outcome bytes :=
  bytes_of_ints (map xor_int (zip_cycle data key key)).

(** ** xor_encode (database.py:23) and URL-safe base64 *)

(** [base64.urlsafe_b64encode] is [binascii.b2a_base64] over the standard
    alphabet, three bytes to four digits with [=] padding, followed by the
    translation of [+] to [-] and of [/] to [_]. *)
Definition b64_alphabet : bytes :=
  blit "ABCDEFGHIJKLMNOPQRSTUVWXYZabcdefghijklmnopqrstuvwxyz0123456789+/".

Definition b64_pad : byte := "="%byte.

Definition b64_digit (n : N) : byte := nth (N.to_nat n) b64_alphabet b64_pad.

Fixpoint b64encode (data : bytes) : bytes :=
  match data with
  | [] => []
  | [x] =>
      let n := Byte.to_N x in
      [b64_digit (n / 4); b64_digit (n mod 4 * 16); b64_pad; b64_pad]
  | [x; y] =>
      let n := Byte.to_N x in
      let m := Byte.to_N y in
      [b64_digit (n / 4); b64_digit (n mod 4 * 16 + m / 16);
       b64_digit (m mod 16 * 4); b64_pad]
  | x :: y :: z :: rest =>
      let n := Byte.to_N x in
      let m := Byte.to_N y in
      let l := Byte.to_N z in
      b64_digit (n / 4) :: b64_digit (n mod 4 * 16 + m / 16)
        :: b64_digit (m mod 16 * 4 + l / 64) :: b64_digit (l mod 64)
        :: b64encode rest
  end%N.

Definition urlsafe_encode_translation (c : byte) : byte :=
  if Byte.eqb c "+" then "-"%byte else if Byte.eqb c "/" then "_"%byte else c.

Definition urlsafe_b64encode (x : bytes) : bytes :=
  map urlsafe_encode_translation (b64encode x).

Definition xor_encode (data key : bytes) : outcome bytes :=
  x <- cyclic_xor data key ;; Returns (urlsafe_b64encode x).

(** The decoder is not part of [database.py]; it is the inverse the round trip
    of [xor_encode] is stated against: [base64.urlsafe_b64decode], that is the
    translation back followed by [binascii.a2b_base64] in its default mode
    (characters outside the alphabet are skipped, a completed pad sequence
    ends the input, a dangling group is an error). *)
Fixpoint index_of (c : byte) (l : bytes) : option N :=
  match l with
  | [] => None
  | x :: l' =>
      if Byte.eqb c x then Some 0%N
      else match index_of c l' with
           | Some i => Some (N.succ i)
           | None => None
           end
  end.

Definition b64_value (c : byte) : option N := index_of c b64_alphabet.

Definition byte_of_N (n : N) : byte :=
  match Byte.of_N (n mod 256) with
  | Some x => x
  | None => x00
  end.

Fixpoint a2b_base64 (input : bytes) (quad_pos : nat) (leftchar : N) (pads : nat)
  : outcome bytes :=
  match input with
  | [] => match quad_pos with O => Returns [] | _ => Raises BinasciiError end
  | ch :: rest =>
      if Byte.eqb ch b64_pad then
        if (2 <=? quad_pos)%nat then
          if (4 <=? quad_pos + S pads)%nat then Returns []
          else a2b_base64 rest quad_pos leftchar (S pads)
        else a2b_base64 rest quad_pos leftchar pads
      else
        match b64_value ch with
        | None => a2b_base64 rest quad_pos leftchar pads
        | Some v =>
            match quad_pos with
            | 0%nat => a2b_base64 rest 1 v 0
            | 1%nat =>
                out <- a2b_base64 rest 2 (v mod 16) 0 ;;
                Returns (byte_of_N (leftchar * 4 + v / 16) :: out)
            | 2%nat =>
                out <- a2b_base64 rest 3 (v mod 4) 0 ;;
                Returns (byte_of_N (leftchar * 16 + v / 4) :: out)
            | _ =>
                out <- a2b_base64 rest 0 0 0 ;;
                Returns (byte_of_N (leftchar * 64 + v) :: out)
            end
        end
  end%N.

Definition urlsafe_decode_translation (c : byte) : byte :=
  if Byte.eqb c "-" then "+"%byte else if Byte.eqb c "_" then "/"%byte else c.

Definition urlsafe_b64decode (x : bytes) : outcome bytes :=
  a2b_base64 (map urlsafe_decode_translation x) 0 0%N 0.

(** A digit as the decoder meets it: encoded, then translated back. *)
Definition b64_wire (v : N) : byte :=
  urlsafe_decode_translation (urlsafe_encode_translation (b64_digit v)).

(** ** hashlib.sha1 (FIPS 180-4) on 32-bit words *)

Definition mask32 : N := 4294967295.

Definition add32 (x y : N) : N := N.land (x + y) mask32.

Definition rotl32 (r x : N) : N :=
  N.lor (N.land (N.shiftl x r) mask32) (N.shiftr x (32 - r)).

Definition not32 (x : N) : N := N.lxor x mask32.

(** Big-endian packing of words and of the 64-bit message length. *)
Definition word_of_bytes (x0 x1 x2 x3 : byte) : N :=
  (Byte.to_N x0 * 16777216 + Byte.to_N x1 * 65536
   + Byte.to_N x2 * 256 + Byte.to_N x3)%N.

Definition bytes_of_word (w : N) : bytes :=
  [byte_of_N (N.shiftr w 24); byte_of_N (N.shiftr w 16);
   byte_of_N (N.shiftr w 8); byte_of_N w].

Definition sha1_pad (msg : bytes) : bytes :=
  let len := N.of_nat (List.length msg) in
  let zeros := N.to_nat ((119 - len mod 64) mod 64) in
  let bits := (len * 8)%N in
  msg ++ x80 :: repeat x00 zeros
      ++ bytes_of_word (N.shiftr bits 32) ++ bytes_of_word bits.

Fixpoint words_of_bytes (l : bytes) : list N :=
  match l with
  | x0 :: x1 :: x2 :: x3 :: l' => word_of_bytes x0 x1 x2 x3 :: words_of_bytes l'
  | _ => []
  end.

(** The message schedule, most recent word first: [rev_w] holds
    [W(t-1); W(t-2); ...]. *)
Fixpoint sha1_schedule (n : nat) (rev_w : list N) : list N :=
  match n with
  | O => rev_w
  | S n' =>
      let w := rotl32 1 (N.lxor (N.lxor (nth 2 rev_w 0) (nth 7 rev_w 0))
                                (N.lxor (nth 13 rev_w 0) (nth 15 rev_w 0)))%N in
      sha1_schedule n' (w :: rev_w)
  end.

Record sha1_state : Type := mk_sha1_state
  { h0 : N; h1 : N; h2 : N; h3 : N; h4 : N }.

Definition sha1_init : sha1_state :=
  mk_sha1_state 1732584193 4023233417 2562383102 271733878 3285377520.

Definition sha1_f (t : nat) (x y z : N) : N :=
  if (t <? 20)%nat then N.lor (N.land x y) (N.land (not32 x) z)
  else if (t <? 40)%nat then N.lxor (N.lxor x y) z
  else if (t <? 60)%nat then
    N.lor (N.lor (N.land x y) (N.land x z)) (N.land y z)
  else N.lxor (N.lxor x y) z.

Definition sha1_k (t : nat) : N :=
  if (t <? 20)%nat then 1518500249
  else if (t <? 40)%nat then 1859775393
  else if (t <? 60)%nat then 2400959708
  else 3395469782.

Fixpoint sha1_rounds (t : nat) (ws : list N) (st : sha1_state) : sha1_state :=
  match ws with
  | [] => st
  | w :: ws' =>
      let temp :=
        add32 (add32 (add32 (add32 (rotl32 5 (h0 st))
                                   (sha1_f t (h1 st) (h2 st) (h3 st)))
                            (h4 st))
                     (sha1_k t))
              w in
      sha1_rounds (S t) ws'
        (mk_sha1_state temp (h0 st) (rotl32 30 (h1 st)) (h2 st) (h3 st))
  end.

Definition sha1_block (st : sha1_state) (block : bytes) : sha1_state :=
  let ws := rev (sha1_schedule 64 (rev (words_of_bytes block))) in
  let r := sha1_rounds 0 ws st in
  mk_sha1_state (add32 (h0 st) (h0 r)) (add32 (h1 st) (h1 r))
                (add32 (h2 st) (h2 r)) (add32 (h3 st) (h3 r))
                (add32 (h4 st) (h4 r)).

Fixpoint sha1_blocks (n : nat) (st : sha1_state) (msg : bytes) : sha1_state :=
  match n with
  | O => st
  | S n' => sha1_blocks n' (sha1_block st (firstn 64 msg)) (skipn 64 msg)
  end.

(** [hashlib.sha1(msg).digest()] *)
Definition sha1 (msg : bytes) : bytes :=
  let padded := sha1_pad msg in
  let st := sha1_blocks (List.length padded / 64) sha1_init padded in
  bytes_of_word (h0 st) ++ bytes_of_word (h1 st) ++ bytes_of_word (h2 st)
    ++ bytes_of_word (h3 st) ++ bytes_of_word (h4 st).

Definition hex_digits : str := slit "0123456789abcdef".

Definition hex_digit (n : N) : codepoint := nth (N.to_nat n) hex_digits 0%N.

Definition hex_of_byte (x : byte) : str :=
  [hex_digit (Byte.to_N x / 16); hex_digit (Byte.to_N x mod 16)]%N.

(** [hashlib.sha1(msg).hexdigest()] *)
Definition sha1_hexdigest (msg : bytes) : str := flat_map hex_of_byte (sha1 msg).

(** ** str methods used by the source *)

(** [x.encode("utf-8")], strict: a surrogate code point cannot be encoded.
    Code points are below 0x110000. *)
Definition utf8_of_codepoint (u : codepoint) : outcome (list N) :=
  (if u <? 128 then Returns [u]
   else if u <? 2048 then Returns [192 + u / 64; 128 + u mod 64]
   else if (55296 <=? u) && (u <=? 57343) then Raises UnicodeEncodeError
   else if u <? 65536 then
     Returns [224 + u / 4096; 128 + (u / 64) mod 64; 128 + u mod 64]
   else
     Returns [240 + u / 262144; 128 + (u / 4096) mod 64;
              128 + (u / 64) mod 64; 128 + u mod 64])%N.

Fixpoint utf8_ints (x : str) : outcome (list N) :=
  match x with
  | [] => Returns []
  | u :: x' =>
      us <- utf8_of_codepoint u ;; rest <- utf8_ints x' ;; Returns (us ++ rest)
  end.

Definition encode_utf8 (x : str) : outcome bytes :=
  ints <- utf8_ints x ;; bytes_of_ints ints.

(** [sub in x] *)
Fixpoint startswith (x pre : str) : bool :=
  match pre, x with
  | [], _ => true
  | p :: pre', u :: x' => N.eqb p u && startswith x' pre'
  | _ :: _, [] => false
  end.

Fixpoint contains (x sub : str) : bool :=
  startswith x sub ||
  match x with
  | [] => false
  | _ :: x' => contains x' sub
  end.

(** [x.endswith(suf)] *)
Definition endswith (x suf : str) : bool := startswith (rev x) (rev suf).

(** [str.isspace] on one code point, the set [str.rstrip()] removes. *)
Definition isspace (u : codepoint) : bool :=
  ((9 <=? u) && (u <=? 13) || (28 <=? u) && (u <=? 32)
   || (u =? 133) || (u =? 160) || (u =? 5760)
   || (8192 <=? u) && (u <=? 8202)
   || (u =? 8232) || (u =? 8233) || (u =? 8239) || (u =? 8287)
   || (u =? 12288))%N.

(** [x.rstrip()] *)
Fixpoint rstrip (x : str) : str :=
  match x with
  | [] => []
  | u :: x' =>
      match rstrip x' with
      | [] => if isspace u then [] else [u]
      | r => u :: r
      end
  end.

(** [x.split(sep, maxsplit)] for a one-character separator. *)
Fixpoint cut_at (sep : codepoint) (x : str) : str * option str :=
  match x with
  | [] => ([], None)
  | u :: x' =>
      if N.eqb u sep then ([], Some x')
      else let (pre, post) := cut_at sep x' in (u :: pre, post)
  end.

Fixpoint split (sep : codepoint) (maxsplit : nat) (x : str) : list str :=
  match maxsplit with
  | O => [x]
  | S m =>
      match cut_at sep x with
      | (pre, Some post) => pre :: split sep m post
      | (pre, None) => [pre]
      end
  end.

(** [x.rfind(ch)]: the highest index of [ch] in [x], or [-1]. *)
Fixpoint rfind_from (i : Z) (found : Z) (ch : codepoint) (x : str) : Z :=
  match x with
  | [] => found
  | u :: x' => rfind_from (i + 1) (if N.eqb u ch then i else found) ch x'
  end.

Definition rfind (x : str) (ch : codepoint) : Z := rfind_from 0 (-1) ch x.

(** [x[start:stop]] with Python's treatment of negative and large indices. *)
Definition clamp_index (len i : Z) : Z :=
  let j := if (i <? 0)%Z then (i + len)%Z else i in
  Z.max 0 (Z.min len j).

Definition slice (x : str) (start stop : Z) : str :=
  let len := Z.of_nat (List.length x) in
  let i := clamp_index len start in
  let j := clamp_index len stop in
  firstn (Z.to_nat (j - i)) (skipn (Z.to_nat i) x).

(** ** Values that reach an f-string *)

Inductive pyval : Type :=
| PyNone
| PyBool (x : bool)
| PyInt (z : Z)
| PyStr (x : str)
| PyBytes (x : bytes).

(** [repr] of a bytes object. *)
Definition repr_byte (quote : N) (x : byte) : str :=
  let n := Byte.to_N x in
  (if (n =? quote) || (n =? 92) then [92; n]
   else if n =? 9 then [92; 116]
   else if n =? 10 then [92; 110]
   else if n =? 13 then [92; 114]
   else if (n <? 32) || (127 <=? n) then
     [92; 120; hex_digit (n / 16); hex_digit (n mod 16)]
   else [n])%N.

Definition repr_bytes (x : bytes) : str :=
  let has (q : N) := existsb (fun y => N.eqb (Byte.to_N y) q) x in
  let quote := if has 39%N && negb (has 34%N) then 34%N else 39%N in
  98%N :: quote :: flat_map (repr_byte quote) x ++ [quote].

(** Converting an [int] to decimal text raises [ValueError] beyond
    [sys.int_info.default_max_str_digits], 4300 digits. *)
Definition int_str_limit : Z := (10 ^ 4300)%Z.

(** [f"{v}"], that is [format(v, "")]. *)
Definition py_format (v : pyval) : outcome str :=
  match v with
  | PyNone => Returns (slit "None")
  | PyBool true => Returns (slit "True")
  | PyBool false => Returns (slit "False")
  | PyInt z =>
      if (int_str_limit <=? Z.abs z)%Z then Raises ValueError
      else Returns (slit (NilZero.string_of_int (Z.to_int z)))
  | PyStr x => Returns x
  | PyBytes x => Returns (repr_bytes x)
  end.

(** ** generate_chk, comment_chk, encode, fix_skid_proxy (database.py:27-49) *)

Definition generate_chk (value key salt : bytes) : outcome bytes :=
  digest <- encode_utf8 (sha1_hexdigest (value ++ salt)) ;;
  xor_encode digest key.

(** The f-string formats its fields from left to right. *)
Definition comment_chk (username content id percentage comment_type : pyval)
  : outcome bytes :=
  u <- py_format username ;;
  c <- py_format content ;;
  i <- py_format id ;;
  p <- py_format percentage ;;
  t <- py_format comment_type ;;
  value <- encode_utf8 (u ++ c ++ i ++ p ++ t) ;;
  generate_chk value (blit "29481") (blit "xPT6iUrtws0J").

Definition encode (data : str + bytes) : outcome bytes :=
  match data with
  | inl x => encode_utf8 x
  | inr x => Returns x
  end.

Definition fix_skid_proxy (ip : str) : str :=
  if negb (contains ip (slit "://")) then slit "all://" ++ ip else ip.

(** ** parse_ban (database.py:53) *)

(** Falling off the end of the function returns [None]. *)
Definition parse_ban (raw_ban_str : str) : outcome (option str) :=
  match split (clit "_") 2 raw_ban_str with
  | [temp; length; reason] =>
      let reason := rstrip reason in
      if endswith reason (slit ")")
         && negb (rfind reason (clit "(") =? -1)%Z
      then
        let user :=
          slice reason (rfind reason (clit "(") + 1) (rfind reason (clit ")")) in
        Returns (Some user)
      else Returns None
  | _ => Raises ValueError
  end.

(** ** The models (database.py:66-116) *)

Module User.
Record t : Type := mk
  { id : option Z; name : str; password : bytes; accountID : Z }.
End User.

Module Ban.
(** [host] is annotated [str], but [issue_ban] assigns it whatever
    [urlparse(...).hostname] is, and that may be [None]. *)
Record t : Type := mk
  { id : option Z;
    host : option str;
    raw_ban_str : str;
    real_user : option str;
    user : option User.t }.
End Ban.

(** [User.gjp2]: the digest is taken over [gjp2_message]. *)
Definition gjp2_message (self : User.t) : bytes :=
  User.password self ++ blit "mI29fmAnxgTs".

Definition gjp2 (self : User.t) : str := sha1_hexdigest (gjp2_message self).

(** [self.<attr>] on a [User]: the mapped columns and the [gjp2] property
    yield values; a name the class does not define raises. The relationship
    [bans] needs the session and is [User_bans] below. *)
Definition User_getattr (self : User.t) (attr : string) : outcome pyval :=
  if String.eqb attr "id" then
    Returns (match User.id self with Some i => PyInt i | None => PyNone end)
  else if String.eqb attr "name" then Returns (PyStr (User.name self))
  else if String.eqb attr "password" then Returns (PyBytes (User.password self))
  else if String.eqb attr "accountID" then Returns (PyInt (User.accountID self))
  else if String.eqb attr "gjp2" then Returns (PyStr (gjp2 self))
  else Raises AttributeError.

Definition level_comment_chk (self : User.t) (b64_content levelID : pyval)
  : outcome bytes :=
  username <- User_getattr self "username" ;;
  comment_chk username b64_content levelID (PyInt 0) (PyInt 1).

Definition profile_comment_chk (self : User.t) (b64_content : pyval)
  : outcome bytes :=
  username <- User_getattr self "username" ;;
  comment_chk username b64_content (PyInt 0) (PyInt 0) (PyInt 0).

(** ** State and errors *)

(** What a coroutine does to the state it runs in. *)
Definition SE (St A : Type) : Type := St -> outcome A * St.

Definition ret {St A : Type} (a : A) : SE St A := fun st => (Returns a, st).

Definition raise {St A : Type} (e : exn) : SE St A := fun st => (Raises e, st).

Definition lift {St A : Type} (m : outcome A) : SE St A := fun st => (m, st).

Definition sbind {St A B : Type} (m : SE St A) (k : A -> SE St B) : SE St B :=
  fun st =>
    match m st with
    | (Returns a, st') => k a st'
    | (Raises e, st') => (Raises e, st')
    end.

Notation "x <~ m ;; k" := (sbind m (fun x => k))
  (at level 61, m at next level, right associativity) : py_scope.

Definition str_eqb (x y : str) : bool :=
  if list_eq_dec N.eq_dec x y then true else false.

(** [result.one_or_none()] *)
Definition one_or_none {A : Type} (rows : list A) : outcome (option A) :=
  match rows with
  | [] => Returns None
  | [r] => Returns (Some r)
  | _ => Raises MultipleResultsFound
  end.

(** ** The libraries behind the Database class

    [database.py] drives SQLAlchemy and SQLModel.  What they do once a
    session is open is not in the source: it is the interface [Orm], over a
    state [St] that stands for everything outside the [Database] object
    (the database file, the mapper registry, the session).  Nothing is
    assumed of its operations.  What the source decides itself is modelled:
    the url it builds, the arguments it passes, the order of its calls and
    its [initalized] flag. *)

Record Orm (AsyncEngine St : Type) : Type := mk_Orm
  { (* leaving [async with self.maker() as s] *)
    session_close : SE St unit;
    (* [MetaData.create_all(bind)] and [s.run_sync(fn)] *)
    create_all : AsyncEngine -> SE St unit;
    run_sync : unit -> SE St unit;
    (* [User(...)] and [Ban(...)] *)
    new_User : User.t -> SE St User.t;
    new_Ban : Ban.t -> SE St Ban.t;
    (* [s.exec(select(User).where(User.name == username))] and the like *)
    select_User_by_name : str -> SE St (list User.t);
    select_Ban_by_host : option str -> SE St (list Ban.t);
    select_Ban_by_real_user : str -> SE St (list Ban.t);
    (* [user.bans] *)
    User_bans : User.t -> SE St (list Ban.t);
    (* [s.merge(obj)] and [s.commit()] *)
    merge_User : User.t -> SE St User.t;
    merge_Ban : Ban.t -> SE St Ban.t;
    commit : SE St unit }.

(** The dialects SQLAlchemy ships as [sqlalchemy.dialects.<name>]. *)
Definition sqlalchemy_dialects : list str :=
  [slit "mssql"; slit "mysql"; slit "mariadb"; slit "oracle";
   slit "postgresql"; slit "sqlite"].

(** The characters of the name in front of [://]: ASCII word characters
    and [+]. *)
Definition drivername_char (u : codepoint) : bool :=
  ((97 <=? u) && (u <=? 122) || (65 <=? u) && (u <=? 90)
   || (48 <=? u) && (u <=? 57) || (u =? 95) || (u =? 43))%N.

(** ** class Database (database.py:119-232) *)

Module Database.
Record t (AsyncEngine : Type) : Type := mk
  { name : str; engine : AsyncEngine; initalized : bool }.
End Database.

Section Database.

Context {AsyncEngine St : Type}.

(** What [create_engine] goes on to do once it has found the dialect. *)
Variable load_dialect : str -> outcome AsyncEngine.

(** [urlparse(url).hostname] of the standard library: the host of the url,
    [None] when it has none, [ValueError] on a malformed one. *)
Variable urlparse_hostname : str -> outcome (option str).

Variable orm : Orm AsyncEngine St.

(** [create_async_engine(url)] up to the choice of the dialect: the url is
    [dialect+driver://...], and a dialect that SQLAlchemy does not have is
    a [NoSuchModuleError]. *)
Definition create_async_engine (url : str) : outcome AsyncEngine :=
  match cut_at (clit ":") url with
  | (u :: drivername, Some rest) =>
      if forallb drivername_char (u :: drivername)
         && startswith rest (slit "//")
      then
        let dialect := fst (cut_at (clit "+") (u :: drivername)) in
        if existsb (str_eqb dialect) sqlalchemy_dialects
        then load_dialect url
        else Raises NoSuchModuleError
      else Raises ArgumentError
  | _ => Raises ArgumentError
  end.

(** [Database(name)]: the attrs initialiser, then [__attrs_post_init__]. *)
Definition Database_new (name : str) : outcome (Database.t AsyncEngine) :=
  engine <- create_async_engine (slit "aiosqlite+sqlite:///" ++ name) ;;
  Returns (Database.mk name engine false).

(** An object and what is outside it. *)
Definition world : Type := (Database.t AsyncEngine * St)%type.

Definition on_store {A : Type} (m : SE St A) : SE world A :=
  fun w => let (r, st) := m (snd w) in (r, (fst w, st)).

(** [async with self.maker() as s: body]: the session is closed when the
    block is left, by a return or by an exception, and an error of the
    closing is what comes out. *)
Definition async_with {A : Type} (body : SE St A) : SE St A :=
  fun st =>
    let (r, st1) := body st in
    match session_close orm st1 with
    | (Returns _, st2) => (r, st2)
    | (Raises e, st2) => (Raises e, st2)
    end.

(** [MetaData.create_all(self, bind, tables=None, checkfirst=True)]: [bind]
    is required. *)
Definition MetaData_create_all (bind : option AsyncEngine) : SE St unit :=
  match bind with
  | Some b => create_all orm b
  | None => raise TypeError
  end.

(** The argument of [run_sync] is evaluated first, and it is
    [IDModel.metadata.create_all()], without a bind. *)
Definition init_db : SE world unit :=
  fun w =>
    let (self, st) := w in
    if Database.initalized self then (Returns tt, w)
    else
      match async_with (fn <~ MetaData_create_all None ;;
                        _ <~ run_sync orm fn ;;
                        commit orm) st with
      | (Returns _, st') =>
          (Returns tt,
           (Database.mk (Database.name self) (Database.engine self) true, st'))
      | (Raises e, st') => (Raises e, (self, st'))
      end.

(** [async with self.session() as s: body] *)
Definition session {A : Type} (body : SE St A) : SE world A :=
  _ <~ (fun w => if Database.initalized (fst w) then (Returns tt, w)
                 else init_db w) ;;
  on_store (async_with body).

Definition proxy_is_banned (proxy : str) : SE world (option Ban.t) :=
  let proxy := fix_skid_proxy proxy in
  host <~ lift (urlparse_hostname proxy) ;;
  session (
    result <~ select_Ban_by_host orm host ;;
    ban <~ lift (one_or_none result) ;;
    ret ban).

Definition new_bot_account (username password : str) (accountID : Z)
  : SE world User.t :=
  session (
    pw <~ lift (encode_utf8 password) ;;
    user <~ new_User orm (User.mk None username pw accountID) ;;
    result <~ merge_User orm user ;;
    _ <~ commit orm ;;
    ret result).

Definition get_bot (username : str) : SE world (option User.t) :=
  session (
    result <~ select_User_by_name orm username ;;
    user <~ lift (one_or_none result) ;;
    ret user).

Definition issue_ban (ban_str : str) (caused_by : option User.t) (proxy : str)
  : SE world unit :=
  session (
    host <~ lift (urlparse_hostname (fix_skid_proxy proxy)) ;;
    real_user <~ lift (parse_ban ban_str) ;;
    ban <~ new_Ban orm (Ban.mk None host ban_str real_user caused_by) ;;
    _ <~ merge_Ban orm ban ;;
    commit orm).

Definition user_is_banned (username : str) : SE world bool :=
  session (
    result <~ select_User_by_name orm username ;;
    user <~ lift (one_or_none result) ;;
    bans <~ match user with
            | Some u => User_bans orm u
            | None => raise AttributeError
            end ;;
    match bans with
    | _ :: _ => ret true
    | [] =>
        result2 <~ select_Ban_by_real_user orm username ;;
        found <~ lift (one_or_none result2) ;;
        match found with
        | Some _ => ret true
        | None => ret false
        end
    end).

Definition user_and_proxy_are_banned (username proxy : str) : SE world bool :=
  ban <~ proxy_is_banned proxy ;;
  match ban with
  | Some _ => ret true
  | None =>
      banned <~ user_is_banned username ;;
      if banned then ret true else ret false
  end.

(** [db = Database(name)] followed by calls on [db]; what is left is the
    state outside the object. *)
Definition with_Database {A : Type} (name : str) (calls : SE world A)
  : SE St A :=
  fun st =>
    match Database_new name with
    | Returns self => let (r, w) := calls (self, st) in (r, snd w)
    | Raises e => (Raises e, st)
    end.

(** The error of a first use: [TypeError] from [create_all()], unless
    closing the session raises. *)
Definition first_use_error (st : St) : exn :=
  match fst (session_close orm st) with
  | Raises e => e
  | Returns _ => TypeError
  end.

End Database.

(** An instance of the interface to evaluate examples on: a library that
    keeps nothing, whose queries find no row. *)
Definition idle_orm : Orm unit unit :=
  mk_Orm (ret tt) (fun _ => ret tt) (fun _ => ret tt)
         (fun u => ret u) (fun x => ret x)
         (fun _ => ret []) (fun _ => ret []) (fun _ => ret [])
         (fun _ => ret [])
         (fun u => ret u) (fun x => ret x) (ret tt).

(** ** Predicates used in the statements *)

(** The characters of URL-safe base64 text. *)
Definition urlsafe_chars : bytes :=
  blit "ABCDEFGHIJKLMNOPQRSTUVWXYZabcdefghijklmnopqrstuvwxyz0123456789-_=".

(** A code point that is a Unicode scalar value: in range and no surrogate. *)
Definition encodable (u : codepoint) : Prop :=
  (u < 55296 \/ (57343 < u /\ u < 1114112))%N.

Definition surrogate (u : codepoint) : Prop := (55296 <= u <= 57343)%N.

(** * Properties *)

Unset Implicit Arguments.

Lemma xor_int_byte (d k : byte) :
  exists x, Byte.of_N (xor_int (d, k)) = Some x /\ xor_int (x, k) = Byte.to_N d.
Proof.
  unfold xor_int; simpl.
  assert (Hb : (N.lxor (Byte.to_N d) (Byte.to_N k) < 256)%N).
  { pose proof (Byte.to_N_bounded d) as Hd.
    pose proof (Byte.to_N_bounded k) as Hk.
    destruct (N.eq_dec (N.lxor (Byte.to_N d) (Byte.to_N k)) 0) as [E|E];
      [rewrite E; lia|].
    apply (N.log2_lt_pow2 _ 8); [lia|].
    eapply N.le_lt_trans; [apply N.log2_lxor|].
    apply N.max_lub_lt.
    - destruct (N.eq_dec (Byte.to_N d) 0) as [Z0|Z0]; [rewrite Z0; simpl; lia|].
      apply N.log2_lt_pow2; simpl; lia.
    - destruct (N.eq_dec (Byte.to_N k) 0) as [Z0|Z0]; [rewrite Z0; simpl; lia|].
      apply N.log2_lt_pow2; simpl; lia. }
  destruct (Byte.of_N (N.lxor (Byte.to_N d) (Byte.to_N k))) as [x|] eqn:E.
  - exists x; split; [reflexivity|].
    apply Byte.to_of_N in E. rewrite E.
    rewrite N.lxor_assoc, N.lxor_nilpotent, N.lxor_0_r. reflexivity.
  - apply Byte.of_N_None_iff in E. lia.
Qed.

Ltac divmod := zify; Z.to_euclidean_division_equations; lia.

Lemma bind_Returns (A B : Type) (m : outcome A) (k : A -> outcome B) (a : A) :
  m = Returns a -> bind m k = k a.
Proof. intros ->. reflexivity. Qed.

(** *** cyclic_xor *)

Lemma zip_cycle_xor_twice (key : bytes) :
  key <> [] ->
  forall data pending,
  exists out,
    bytes_of_ints (map xor_int (zip_cycle data pending key)) = Returns out
    /\ bytes_of_ints (map xor_int (zip_cycle out pending key)) = Returns data.
Proof.
  intros Hkey data.
  induction data as [|d data IH]; intros pending.
  - exists []. split; reflexivity.
  - assert (Hstep : exists k pending',
               zip_cycle (d :: data) pending key
               = (d, k) :: zip_cycle data pending' key
               /\ forall (x : byte) (out : bytes), zip_cycle (x :: out) pending key
                                = (x, k) :: zip_cycle out pending' key).
    { destruct pending as [|k pending'].
      - destruct key as [|k pending']; [contradiction|].
        exists k, pending'. split; reflexivity.
      - exists k, pending'. split; reflexivity. }
    destruct Hstep as (k & pending' & Hd & Hx).
    destruct (IH pending') as (out & Hout & Hback).
    destruct (xor_int_byte d k) as (x & Hx1 & Hx2).
    exists (x :: out). rewrite Hd, Hx. simpl.
    rewrite Hx1, Hout. simpl. split; [reflexivity|].
    rewrite Hx2, Byte.of_to_N, Hback. reflexivity.
Qed.

Lemma cyclic_xor_twice (d k : bytes) :
  k <> [] ->
  exists e, cyclic_xor d k = Returns e /\ cyclic_xor e k = Returns d.
Proof.
  intros Hk. unfold cyclic_xor.
  destruct (zip_cycle_xor_twice k Hk d k) as (out & Hout & Hback).
  exists out. split; assumption.
Qed.

(** C6. For every byte sequence [d] and every non-empty key [k], applying
    [cyclic_xor] with [k] twice gives [d] back: the first call returns, and
    the second call on its result returns [d]. *)
Theorem cyclic_xor_involutive (d k : bytes) :
  k <> [] ->
  (e <- cyclic_xor d k ;; cyclic_xor e k) = Returns d.
Proof.
  intros Hk. destruct (cyclic_xor_twice d k Hk) as (e & He & Hback).
  rewrite He. exact Hback.
Qed.

Lemma cyclic_xor_involutive_witness :
  blit "pw" <> []
  /\ (e <- cyclic_xor (blit "secret") (blit "pw") ;; cyclic_xor e (blit "pw"))
     = Returns (blit "secret").
Proof.
  split; [discriminate|].
  apply (cyclic_xor_involutive (blit "secret") (blit "pw")). discriminate.
Defined.

(** C9, as the code has it. With an empty key [itertools.cycle] yields
    nothing, [zip] stops at once and [cyclic_xor] returns the empty byte
    sequence for every [d]; it does not raise. *)
Theorem cyclic_xor_empty_key (d : bytes) : cyclic_xor d [] = Returns [].
Proof. destruct d; reflexivity. Qed.

(** C9 fails as stated: on [b"abc"] and the empty key the call returns. *)
Lemma cyclic_xor_empty_key_does_not_raise :
  cyclic_xor (blit "abc") [] = Returns []
  /\ ~ (exists e, cyclic_xor (blit "abc") [] = Raises e).
Proof.
  split; [reflexivity|]. intros [e He]. discriminate He.
Qed.

(** *** URL-safe base64 *)

Lemma list_ind3 (A : Type) (P : list A -> Prop) :
  P [] -> (forall x, P [x]) -> (forall x y, P [x; y]) ->
  (forall x y z l, P l -> P (x :: y :: z :: l)) ->
  forall l, P l.
Proof.
  intros H0 H1 H2 H3.
  fix IH 1.
  intros [|x [|y [|z l]]];
    [exact H0 | apply H1 | apply H2 | apply H3; apply IH].
Qed.

Lemma b64_digit_decodes (v : N) :
  (v < 64)%N ->
  Byte.eqb (urlsafe_decode_translation (urlsafe_encode_translation (b64_digit v)))
           b64_pad = false
  /\ b64_value (urlsafe_decode_translation
                  (urlsafe_encode_translation (b64_digit v))) = Some v.
Proof.
  intros Hv.
  destruct v as [|p]; [vm_compute; split; reflexivity|].
  do 6 (try destruct p as [p|p|]); try lia; vm_compute; split; reflexivity.
Qed.

Lemma a2b_base64_cons (ch : byte) (rest : bytes) (quad_pos : nat)
      (leftchar : N) (pads : nat) :
  a2b_base64 (ch :: rest) quad_pos leftchar pads =
  if Byte.eqb ch b64_pad then
    if (2 <=? quad_pos)%nat then
      if (4 <=? quad_pos + S pads)%nat then Returns []
      else a2b_base64 rest quad_pos leftchar (S pads)
    else a2b_base64 rest quad_pos leftchar pads
  else
    match b64_value ch with
    | None => a2b_base64 rest quad_pos leftchar pads
    | Some v =>
        match quad_pos with
        | 0%nat => a2b_base64 rest 1 v 0
        | 1%nat =>
            out <- a2b_base64 rest 2 (v mod 16)%N 0 ;;
            Returns (byte_of_N (leftchar * 4 + v / 16)%N :: out)
        | 2%nat =>
            out <- a2b_base64 rest 3 (v mod 4)%N 0 ;;
            Returns (byte_of_N (leftchar * 16 + v / 4)%N :: out)
        | _ =>
            out <- a2b_base64 rest 0 0%N 0 ;;
            Returns (byte_of_N (leftchar * 64 + v)%N :: out)
        end
    end.
Proof. reflexivity. Qed.

Lemma a2b_base64_digit (v : N) (rest : bytes) (quad_pos : nat) (leftchar : N)
      (pads : nat) :
  (v < 64)%N ->
  a2b_base64 (b64_wire v :: rest) quad_pos leftchar pads =
  match quad_pos with
  | 0%nat => a2b_base64 rest 1 v 0
  | 1%nat =>
      out <- a2b_base64 rest 2 (v mod 16) 0 ;;
      Returns (byte_of_N (leftchar * 4 + v / 16) :: out)
  | 2%nat =>
      out <- a2b_base64 rest 3 (v mod 4) 0 ;;
      Returns (byte_of_N (leftchar * 16 + v / 4) :: out)
  | _ =>
      out <- a2b_base64 rest 0 0 0 ;;
      Returns (byte_of_N (leftchar * 64 + v) :: out)
  end%N.
Proof.
  intros Hv. destruct (b64_digit_decodes v Hv) as [Hpad Hval].
  rewrite a2b_base64_cons. unfold b64_wire. rewrite Hpad, Hval. reflexivity.
Qed.

Lemma byte_of_to_N (x : byte) (n : N) : n = Byte.to_N x -> byte_of_N n = x.
Proof.
  intros ->. unfold byte_of_N.
  pose proof (Byte.to_N_bounded x) as Hx.
  rewrite N.mod_small by lia. rewrite Byte.of_to_N. reflexivity.
Qed.

Ltac bytes_back :=
  repeat match goal with
         | |- context [byte_of_N ?n] =>
             match goal with
             | x : byte |- _ => rewrite (byte_of_to_N x n) by divmod
             end
         end.

Lemma urlsafe_b64_roundtrip (x : bytes) :
  urlsafe_b64decode (urlsafe_b64encode x) = Returns x.
Proof.
  unfold urlsafe_b64decode, urlsafe_b64encode. rewrite map_map.
  induction x as [|x0|x0 x1|x0 x1 x2 l IH] using list_ind3.
  - reflexivity.
  - pose proof (Byte.to_N_bounded x0) as H0.
    cbn [b64encode map]. fold (b64_wire (Byte.to_N x0 / 4)).
    fold (b64_wire (Byte.to_N x0 mod 4 * 16)).
    rewrite !a2b_base64_digit by divmod.
    cbn. bytes_back. reflexivity.
  - pose proof (Byte.to_N_bounded x0) as H0.
    pose proof (Byte.to_N_bounded x1) as H1.
    cbn [b64encode map]. fold (b64_wire (Byte.to_N x0 / 4)).
    fold (b64_wire (Byte.to_N x0 mod 4 * 16 + Byte.to_N x1 / 16)).
    fold (b64_wire (Byte.to_N x1 mod 16 * 4)).
    rewrite !a2b_base64_digit by divmod.
    cbn. bytes_back. reflexivity.
  - pose proof (Byte.to_N_bounded x0) as H0.
    pose proof (Byte.to_N_bounded x1) as H1.
    pose proof (Byte.to_N_bounded x2) as H2.
    cbn [b64encode map]. fold (b64_wire (Byte.to_N x0 / 4)).
    fold (b64_wire (Byte.to_N x0 mod 4 * 16 + Byte.to_N x1 / 16)).
    fold (b64_wire (Byte.to_N x1 mod 16 * 4 + Byte.to_N x2 / 64)).
    fold (b64_wire (Byte.to_N x2 mod 64)).
    rewrite !a2b_base64_digit by divmod.
    rewrite IH. cbn [bind]. bytes_back. reflexivity.
Qed.

(** *** xor_encode *)

(** C7, as the code has it. Decoding [xor_encode d k] from URL-safe base64
    and applying [cyclic_xor] with [k] again recovers [d] when the key is
    non-empty (or when [d] is itself empty). *)
Theorem xor_encode_roundtrip (d k : bytes) :
  k <> [] \/ d = [] ->
  (c <- xor_encode d k ;; x <- urlsafe_b64decode c ;; cyclic_xor x k)
  = Returns d.
Proof.
  intros [Hk | ->].
  - destruct (cyclic_xor_twice d k Hk) as (e & He & Hback).
    unfold xor_encode. rewrite He. cbn [bind].
    rewrite urlsafe_b64_roundtrip. exact Hback.
  - unfold xor_encode, cyclic_xor. destruct k; reflexivity.
Qed.

Lemma xor_encode_roundtrip_witness :
  (blit "29481" <> [] \/ blit "digest" = [])
  /\ (c <- xor_encode (blit "digest") (blit "29481") ;;
      x <- urlsafe_b64decode c ;; cyclic_xor x (blit "29481"))
     = Returns (blit "digest").
Proof.
  assert (H : blit "29481" <> [] \/ blit "digest" = []) by (left; discriminate).
  split; [exact H|].
  exact (xor_encode_roundtrip (blit "digest") (blit "29481") H).
Defined.

(** C7 fails as stated: with the empty key the round trip of [b"a"] ends in
    the empty byte sequence. *)
Lemma xor_encode_roundtrip_empty_key :
  (c <- xor_encode (blit "a") [] ;; x <- urlsafe_b64decode c ;; cyclic_xor x [])
  = Returns []
  /\ (c <- xor_encode (blit "a") [] ;; x <- urlsafe_b64decode c ;;
      cyclic_xor x [])
     <> Returns (blit "a").
Proof. split; [reflexivity|discriminate]. Qed.

(** *** User.gjp2 *)

(** The SHA-1 model on the test vectors of FIPS 180: one block, and two. *)
Example sha1_abc :
  sha1_hexdigest (blit "abc") = slit "a9993e364706816aba3e25717850c26c9cd0d89d".
Proof. vm_compute. reflexivity. Qed.

Example sha1_two_blocks :
  sha1_hexdigest
    (blit "abcdbcdecdefdefgefghfghighijhijkijkljklmklmnlmnomnopnopq")
  = slit "84983e441c3bd26ebaae4aa1f95129e5e54670f1".
Proof. vm_compute. reflexivity. Qed.

Lemma sha1_length (msg : bytes) : List.length (sha1 msg) = 20%nat.
Proof. unfold sha1. rewrite !length_app. reflexivity. Qed.

Lemma hex_digit_lowercase (n : N) :
  (n < 16)%N -> In (hex_digit n) (slit "0123456789abcdef").
Proof.
  intros Hn. unfold hex_digit. apply nth_In.
  match goal with |- (_ < ?len)%nat => change len with 16%nat end. lia.
Qed.

Lemma hex_of_bytes_shape (l : bytes) :
  List.length (flat_map hex_of_byte l) = (2 * List.length l)%nat
  /\ Forall (fun u => In u (slit "0123456789abcdef")) (flat_map hex_of_byte l).
Proof.
  induction l as [|x l [IHl IHf]].
  - split; [reflexivity|constructor].
  - pose proof (Byte.to_N_bounded x) as Hx.
    split.
    + simpl in *. lia.
    + simpl. constructor; [apply hex_digit_lowercase; divmod|].
      constructor; [apply hex_digit_lowercase; divmod|exact IHf].
Qed.

Lemma sha1_hexdigest_shape (msg : bytes) :
  List.length (sha1_hexdigest msg) = 40%nat
  /\ Forall (fun u => In u (slit "0123456789abcdef")) (sha1_hexdigest msg).
Proof.
  unfold sha1_hexdigest.
  destruct (hex_of_bytes_shape (sha1 msg)) as [Hl Hf].
  rewrite sha1_length in Hl. split; assumption.
Qed.

(** C5, as the code has it. [gjp2] is the SHA-1 digest of the password
    followed by the fixed constant [b"mI29fmAnxgTs"], which is 12 bytes
    long, written as 40 lowercase hexadecimal digits. *)
Theorem gjp2_is_salted_sha1_hex (self : User.t) :
  gjp2 self = sha1_hexdigest (User.password self ++ blit "mI29fmAnxgTs")
  /\ List.length (blit "mI29fmAnxgTs") = 12%nat
  /\ List.length (gjp2 self) = 40%nat
  /\ Forall (fun u => In u (slit "0123456789abcdef")) (gjp2 self).
Proof.
  split; [reflexivity|]. split; [reflexivity|]. apply sha1_hexdigest_shape.
Qed.

(** C5 fails as stated: the bytes [gjp2] hashes are not the password
    followed by a constant of 14 bytes. *)
Lemma gjp2_salt_is_not_14_bytes :
  ~ (exists salt : bytes,
       List.length salt = 14%nat
       /\ forall self : User.t, gjp2_message self = User.password self ++ salt).
Proof.
  intros (salt & Hlen & Hmsg).
  specialize (Hmsg (User.mk None [] [] 0%Z)).
  cbn in Hmsg. rewrite <- Hmsg in Hlen. discriminate Hlen.
Qed.

(** The digest of the specification's example, [b"pw123"]. *)
Example gjp2_pw123 :
  gjp2 (User.mk None (slit "bob") (blit "pw123") 5%Z)
  = slit "d381602bb22a7ca7a4e11ec62de39b060218faf6".
Proof. vm_compute. reflexivity. Qed.

(** *** The comment checksums of a User *)

(** C10. For every user, content and level id, [profile_comment_chk] and
    [level_comment_chk] raise [AttributeError]: both read [self.username],
    and the model defines [name], not [username]; no call returns a
    checksum. *)
Theorem comment_chk_methods_raise (self : User.t) (b64_content levelID : pyval) :
  profile_comment_chk self b64_content = Raises AttributeError
  /\ level_comment_chk self b64_content levelID = Raises AttributeError
  /\ ~ (exists chk, profile_comment_chk self b64_content = Returns chk)
  /\ ~ (exists chk, level_comment_chk self b64_content levelID = Returns chk).
Proof.
  assert (Hattr : User_getattr self "username" = Raises AttributeError)
    by reflexivity.
  unfold profile_comment_chk, level_comment_chk. rewrite Hattr. cbn [bind].
  repeat split; try (intros [chk H]; discriminate H).
Qed.

(** *** parse_ban *)

Lemma cut_at_spec (sep : codepoint) (x : str) :
  match cut_at sep x with
  | (pre, Some post) => x = pre ++ sep :: post /\ ~ In sep pre
  | (pre, None) => x = pre /\ ~ In sep x
  end.
Proof.
  induction x as [|u x IH]; simpl.
  - split; [reflexivity|intros []].
  - destruct (N.eqb_spec u sep) as [->|Hne].
    + split; [reflexivity|intros []].
    + destruct (cut_at sep x) as [pre [post|]]; destruct IH as [IH1 IH2].
      * split; [rewrite IH1 at 1; reflexivity|].
        intros [H|H]; [contradiction|contradiction].
      * subst pre. split; [reflexivity|].
        intros [H|H]; [contradiction|contradiction].
Qed.

Lemma cut_at_first (sep : codepoint) (pre post : str) :
  ~ In sep pre -> cut_at sep (pre ++ sep :: post) = (pre, Some post).
Proof.
  induction pre as [|u pre IH]; intros Hnot; simpl.
  - rewrite N.eqb_refl. reflexivity.
  - destruct (N.eqb_spec u sep) as [->|Hne].
    + exfalso. apply Hnot. left. reflexivity.
    + rewrite IH; [reflexivity|]. intros H. apply Hnot. right. exact H.
Qed.

Lemma count_occ_notin (sep : codepoint) (x : str) :
  ~ In sep x -> count_occ N.eq_dec x sep = 0%nat.
Proof. intros H. apply count_occ_not_In. exact H. Qed.

Lemma split_two_fields (sep : codepoint) (f1 f2 rest : str) :
  ~ In sep f1 -> ~ In sep f2 ->
  split sep 2 (f1 ++ sep :: f2 ++ sep :: rest) = [f1; f2; rest].
Proof.
  intros H1 H2. simpl.
  rewrite (cut_at_first _ _ _ H1), (cut_at_first _ _ _ H2). reflexivity.
Qed.

Lemma split_few_separators (sep : codepoint) (x : str) :
  (count_occ N.eq_dec x sep < 2)%nat ->
  (List.length (split sep 2 x) < 3)%nat.
Proof.
  intros Hc. simpl.
  pose proof (cut_at_spec sep x) as H1.
  destruct (cut_at sep x) as [pre [post|]]; [|simpl; lia].
  destruct H1 as [-> Hpre].
  pose proof (cut_at_spec sep post) as H2.
  destruct (cut_at sep post) as [pre2 [post2|]]; [|simpl; lia].
  destruct H2 as [-> Hpre2].
  rewrite count_occ_app in Hc. simpl in Hc.
  destruct (N.eq_dec sep sep) as [_|Hne]; [|contradiction].
  rewrite count_occ_app in Hc. simpl in Hc.
  destruct (N.eq_dec sep sep) as [_|Hne]; [|contradiction]. lia.
Qed.

Lemma rstrip_spec (x : str) :
  exists ws,
    x = rstrip x ++ ws
    /\ Forall (fun u => isspace u = true) ws
    /\ (forall r u, rstrip x = r ++ [u] -> isspace u = false).
Proof.
  induction x as [|u x (ws & Hx & Hws & Hlast)].
  - exists []. repeat split; [constructor|].
    intros r u H. destruct r; discriminate H.
  - simpl. destruct (rstrip x) as [|v r'] eqn:Hr.
    + destruct (isspace u) eqn:Hu.
      * exists (u :: ws). simpl in Hx. subst x.
        repeat split; [constructor; assumption|].
        intros r v H. destruct r; discriminate H.
      * exists ws. simpl in Hx. subst x.
        repeat split; [assumption|].
        intros r v H. destruct r as [|a [|b r]]; [|discriminate H..].
        injection H as <-. exact Hu.
    + exists ws. split; [rewrite Hx at 1; reflexivity|].
      split; [assumption|].
      intros r w H. destruct r as [|a r].
      * discriminate H.
      * injection H as _ H. apply (Hlast r w). exact H.
Qed.

Lemma endswith_char (x : str) (ch : codepoint) :
  endswith x [ch] = true <-> exists pre, x = pre ++ [ch].
Proof.
  unfold endswith. simpl. split.
  - intros H. destruct (rev x) as [|u r] eqn:Hr; [discriminate H|].
    simpl in H. apply andb_true_iff in H. destruct H as [H _].
    apply N.eqb_eq in H. subst u.
    exists (rev r). rewrite <- (rev_involutive x), Hr. reflexivity.
  - intros [pre ->]. rewrite rev_app_distr. simpl.
    rewrite N.eqb_refl. destruct (rev pre); reflexivity.
Qed.

Lemma rfind_from_absent (ch : codepoint) (x : str) (i found : Z) :
  ~ In ch x -> rfind_from i found ch x = found.
Proof.
  revert i found. induction x as [|u x IH]; intros i found Hnot; simpl.
  - reflexivity.
  - destruct (N.eqb_spec u ch) as [->|Hne].
    + exfalso. apply Hnot. left. reflexivity.
    + apply IH. intros H. apply Hnot. right. exact H.
Qed.

Lemma rfind_from_last (ch : codepoint) (pre post : str) (i found : Z) :
  ~ In ch post ->
  rfind_from i found ch (pre ++ ch :: post) = (i + Z.of_nat (List.length pre))%Z.
Proof.
  revert i found. induction pre as [|u pre IH]; intros i found Hnot.
  - simpl. rewrite N.eqb_refl. rewrite rfind_from_absent by exact Hnot. lia.
  - cbn [app rfind_from List.length]. rewrite IH by exact Hnot. lia.
Qed.

Lemma rfind_from_lower (ch : codepoint) (x : str) (i found lo : Z) :
  (lo <= i)%Z -> (lo <= found)%Z \/ In ch x ->
  (lo <= rfind_from i found ch x)%Z.
Proof.
  revert i found. induction x as [|u x IH]; intros i found Hi Hor; simpl.
  - destruct Hor as [H|[]]. exact H.
  - apply IH; [lia|].
    destruct (N.eqb_spec u ch) as [->|Hne]; [left; lia|].
    destruct Hor as [H|[H|H]]; [left; exact H|contradiction|right; exact H].
Qed.

Lemma rfind_absent_iff (x : str) (ch : codepoint) :
  rfind x ch = (-1)%Z <-> ~ In ch x.
Proof.
  split.
  - intros H Hin.
    assert (0 <= rfind x ch)%Z
      by (apply rfind_from_lower; [lia|right; exact Hin]).
    lia.
  - intros H. unfold rfind. apply rfind_from_absent. exact H.
Qed.

Lemma slice_between (pre mid post : str) :
  slice (pre ++ mid ++ post) (Z.of_nat (List.length pre))
        (Z.of_nat (List.length pre + List.length mid)) = mid.
Proof.
  unfold slice, clamp_index. rewrite !length_app.
  assert (H1 : (Z.of_nat (List.length pre) <? 0)%Z = false)
    by (apply Z.ltb_ge; lia).
  assert (H2 : (Z.of_nat (List.length pre + List.length mid) <? 0)%Z = false)
    by (apply Z.ltb_ge; lia).
  rewrite H1, H2.
  rewrite (Z.min_r _ (Z.of_nat (List.length pre))) by lia.
  rewrite (Z.min_r _ (Z.of_nat (List.length pre + List.length mid))) by lia.
  rewrite !Z.max_r by lia.
  rewrite Nat2Z.id.
  replace (Z.to_nat (Z.of_nat (List.length pre + List.length mid)
                     - Z.of_nat (List.length pre)))
    with (List.length mid) by lia.
  rewrite skipn_app, skipn_all, Nat.sub_diag. simpl.
  rewrite firstn_app, firstn_all, Nat.sub_diag. simpl.
  apply app_nil_r.
Qed.

Lemma parse_ban_reason (f1 f2 rest : str) :
  ~ In (clit "_") f1 -> ~ In (clit "_") f2 ->
  parse_ban (f1 ++ clit "_" :: f2 ++ clit "_" :: rest) =
  let reason := rstrip rest in
  if endswith reason (slit ")") && negb (rfind reason (clit "(") =? -1)%Z
  then Returns (Some (slice reason (rfind reason (clit "(") + 1)
                                   (rfind reason (clit ")"))))
  else Returns None.
Proof.
  intros H1 H2. unfold parse_ban.
  rewrite (split_two_fields _ _ _ _ H1 H2). reflexivity.
Qed.

Lemma last_occurrence (ch : codepoint) (x : str) :
  In ch x -> exists pre post, x = pre ++ ch :: post /\ ~ In ch post.
Proof.
  induction x as [|u x IH]; intros Hin; [destruct Hin|].
  destruct (in_dec N.eq_dec ch x) as [Hx|Hx].
  - destruct (IH Hx) as (pre & post & -> & Hpost).
    exists (u :: pre), post. split; [reflexivity|exact Hpost].
  - destruct Hin as [->|Hin]; [|contradiction].
    exists [], x. split; [reflexivity|exact Hx].
Qed.

Lemma reason_shapes (reason : str) :
  (exists pre user : str,
      reason = pre ++ clit "(" :: user ++ [clit ")"] /\ ~ In (clit "(") user)
  \/ (forall pre, reason <> pre ++ [clit ")"])
  \/ ~ In (clit "(") reason.
Proof.
  destruct (endswith reason [clit ")"]) eqn:Hend.
  - apply endswith_char in Hend. destruct Hend as [r ->].
    destruct (in_dec N.eq_dec (clit "(") r) as [Hin|Hnot].
    + left. destruct (last_occurrence _ _ Hin) as (pre & user & -> & Huser).
      exists pre, user. split; [|exact Huser].
      rewrite <- app_assoc. reflexivity.
    + right. right. intros Hin. apply in_app_or in Hin.
      destruct Hin as [Hin|[Hin|[]]]; [contradiction|discriminate Hin].
  - right. left. intros pre Heq.
    assert (H : endswith reason [clit ")"] = true)
      by (apply endswith_char; exists pre; exact Heq).
    rewrite H in Hend. discriminate Hend.
Qed.

(** C8. [parse_ban] splits on the first two [_] only and keeps the rest
    whole as the reason, strips the reason's trailing whitespace, and then:
    a reason of the form [pre ( user )] whose [user] holds no further [(]
    gives [user], the text strictly between the last [(] and the last [)];
    a reason that does not end with [)] or holds no [(] gives [None]; every
    reason is of one of these shapes; an input with fewer than two [_]
    raises ([ValueError], the specification's FormatError) and does not
    return. *)
Theorem parse_ban_correct (raw_ban_str : str) :
  ((count_occ N.eq_dec raw_ban_str (clit "_") < 2)%nat ->
   parse_ban raw_ban_str = Raises ValueError)
  /\ (forall f1 f2 rest : str,
        raw_ban_str = f1 ++ clit "_" :: f2 ++ clit "_" :: rest ->
        ~ In (clit "_") f1 -> ~ In (clit "_") f2 ->
        let reason := rstrip rest in
        (exists ws : str,
            rest = reason ++ ws
            /\ Forall (fun u => isspace u = true) ws
            /\ (forall r u, reason = r ++ [u] -> isspace u = false))
        /\ (forall pre user : str,
              reason = pre ++ clit "(" :: user ++ [clit ")"] ->
              ~ In (clit "(") user ->
              parse_ban raw_ban_str = Returns (Some user))
        /\ ((forall pre, reason <> pre ++ [clit ")"])
             \/ ~ In (clit "(") reason ->
             parse_ban raw_ban_str = Returns None)
        /\ ((exists pre user : str,
                reason = pre ++ clit "(" :: user ++ [clit ")"]
                /\ ~ In (clit "(") user)
            \/ (forall pre, reason <> pre ++ [clit ")"])
            \/ ~ In (clit "(") reason)).
Proof.
  split.
  - intros Hc. unfold parse_ban.
    pose proof (split_few_separators _ _ Hc) as Hlen.
    destruct (split (clit "_") 2 raw_ban_str) as [|a [|b' [|c' [|e l]]]];
      try reflexivity; simpl in Hlen; lia.
  - intros f1 f2 rest -> H1 H2 reason. subst reason.
    rewrite (parse_ban_reason _ _ _ H1 H2). cbv zeta.
    split; [apply rstrip_spec|].
    split.
    + intros pre user Hreason Hnot. rewrite Hreason.
      assert (Hends : endswith (pre ++ clit "(" :: user ++ [clit ")"])
                               (slit ")") = true).
      { apply endswith_char. exists (pre ++ clit "(" :: user).
        rewrite <- app_assoc. reflexivity. }
      assert (Hopen : rfind (pre ++ clit "(" :: user ++ [clit ")"]) (clit "(")
                      = Z.of_nat (List.length pre)).
      { unfold rfind. rewrite rfind_from_last; [lia|].
        intros Hin. apply in_app_or in Hin.
        destruct Hin as [Hin|[Hin|[]]]; [contradiction|discriminate Hin]. }
      assert (Hclose : rfind (pre ++ clit "(" :: user ++ [clit ")"]) (clit ")")
                       = Z.of_nat (List.length (pre ++ [clit "("])
                                   + List.length user)).
      { unfold rfind.
        replace (pre ++ clit "(" :: user ++ [clit ")"])
          with ((pre ++ clit "(" :: user) ++ clit ")" :: [])
          by (rewrite <- app_assoc; reflexivity).
        rewrite rfind_from_last by (intros []).
        rewrite !length_app. simpl. lia. }
      rewrite Hends, Hopen, Hclose.
      replace (Z.of_nat (List.length pre) =? -1)%Z with false
        by (symmetry; apply Z.eqb_neq; lia).
      cbn [andb negb]. do 2 f_equal.
      replace (Z.of_nat (List.length pre) + 1)%Z
        with (Z.of_nat (List.length (pre ++ [clit "("])))
        by (rewrite length_app; simpl; lia).
      replace (pre ++ clit "(" :: user ++ [clit ")"])
        with ((pre ++ [clit "("]) ++ user ++ [clit ")"])
        by (rewrite <- app_assoc; reflexivity).
      apply slice_between.
    + split; [|apply reason_shapes].
      intros [Hend|Hopen].
      * assert (H : endswith (rstrip rest) (slit ")") = false).
        { destruct (endswith (rstrip rest) (slit ")")) eqn:E; [|reflexivity].
          apply endswith_char in E. destruct E as [pre E].
          exfalso. exact (Hend pre E). }
        rewrite H. reflexivity.
      * apply rfind_absent_iff in Hopen. rewrite Hopen.
        rewrite andb_false_r. reflexivity.
Qed.

Lemma parse_ban_correct_witness :
  parse_ban (slit "onlyonesep_reason") = Raises ValueError
  /\ parse_ban (slit "1_2_Cheating detected (JohnDoe)")
     = Returns (Some (slit "JohnDoe"))
  /\ parse_ban (slit "1_2_Cheating detected") = Returns None.
Proof.
  split; [|split].
  - apply (parse_ban_correct (slit "onlyonesep_reason")).
    vm_compute. lia.
  - destruct (parse_ban_correct (slit "1_2_Cheating detected (JohnDoe)"))
      as [_ H].
    apply (H (slit "1") (slit "2") (slit "Cheating detected (JohnDoe)")
             eq_refl)
      with (pre := slit "Cheating detected ").
    + vm_compute. intuition discriminate.
    + vm_compute. intuition discriminate.
    + reflexivity.
    + vm_compute. intuition discriminate.
  - destruct (parse_ban_correct (slit "1_2_Cheating detected")) as [_ H].
    apply (H (slit "1") (slit "2") (slit "Cheating detected") eq_refl).
    + vm_compute. intuition discriminate.
    + vm_compute. intuition discriminate.
    + right. vm_compute. intuition discriminate.
Defined.
(** *** The Database class: construction and first use *)

Section DatabaseProperties.

Context {AsyncEngine St : Type}.
Variable load_dialect : str -> outcome AsyncEngine.
Variable urlparse_hostname : str -> outcome (option str).
Variable orm : Orm AsyncEngine St.

(** The url the class builds names the driver where the dialect belongs. *)
Lemma create_async_engine_reversed (name : str) :
  create_async_engine load_dialect (slit "aiosqlite+sqlite:///" ++ name)
  = Raises NoSuchModuleError.
Proof. vm_compute. reflexivity. Qed.

Lemma Database_new_raises (name : str) :
  Database_new load_dialect name = Raises NoSuchModuleError.
Proof.
  unfold Database_new. rewrite create_async_engine_reversed. reflexivity.
Qed.

Lemma with_Database_raises (A : Type) (name : str)
      (calls : SE (@world AsyncEngine St) A) (st : St) :
  with_Database load_dialect name calls st = (Raises NoSuchModuleError, st).
Proof. unfold with_Database. rewrite Database_new_raises. reflexivity. Qed.

Lemma init_db_fails (self : Database.t AsyncEngine) (st : St) :
  Database.initalized self = false ->
  init_db orm (self, st)
  = (Raises (first_use_error orm st), (self, snd (session_close orm st))).
Proof.
  intros Hinit.
  unfold init_db, async_with, sbind, MetaData_create_all, raise,
    first_use_error.
  rewrite Hinit. destruct (session_close orm st) as [[u|e] st2]; reflexivity.
Qed.

Lemma session_fails (A : Type) (body : SE St A) (self : Database.t AsyncEngine)
      (st : St) :
  Database.initalized self = false ->
  session orm body (self, st)
  = (Raises (first_use_error orm st), (self, snd (session_close orm st))).
Proof.
  intros Hinit. unfold session, sbind. cbn [fst]. rewrite Hinit.
  rewrite (init_db_fails self st Hinit). reflexivity.
Qed.

Lemma first_use_error_TypeError (st : St) (u : unit) :
  fst (session_close orm st) = Returns u -> first_use_error orm st = TypeError.
Proof. unfold first_use_error. intros ->. reflexivity. Qed.

(** C1 at a failing input. Two notifications for the same address, on any
    database name: [Database(name)] raises [NoSuchModuleError], so neither
    call is made and nothing outside changes.  On an object that exists
    and was not initialised the first call raises before the text and the
    address are looked at, with [TypeError] from [create_all()] unless
    closing the session raises; the second call is not reached, no [merge]
    and no [commit] runs, and the object stays uninitialised.  No Ban
    record holds the second text. *)
Theorem issue_ban_never_stores (name text text2 proxy : str) (st : St) :
  with_Database load_dialect name
    (_ <~ issue_ban urlparse_hostname orm text None proxy ;;
     issue_ban urlparse_hostname orm text2 None proxy) st
  = (Raises NoSuchModuleError, st)
  /\ forall self : Database.t AsyncEngine,
       Database.initalized self = false ->
       (_ <~ issue_ban urlparse_hostname orm text None proxy ;;
        issue_ban urlparse_hostname orm text2 None proxy) (self, st)
       = (Raises (first_use_error orm st), (self, snd (session_close orm st))).
Proof.
  split; [apply with_Database_raises|].
  intros self Hinit. unfold sbind at 1, issue_ban at 1.
  rewrite (session_fails _ _ self st Hinit). reflexivity.
Qed.

(** C2 at a failing input. After a ban that names a user, on any database
    name: [Database(name)] raises [NoSuchModuleError] and
    [user_is_banned] is never called.  On an object that exists and was not
    initialised [user_is_banned] raises on entering the session, before any
    query, whatever the name: it returns neither [True] nor [False]. *)
Theorem user_is_banned_never_answers (name text proxy username : str) (st : St) :
  with_Database load_dialect name
    (_ <~ issue_ban urlparse_hostname orm text None proxy ;;
     user_is_banned orm username) st
  = (Raises NoSuchModuleError, st)
  /\ forall self : Database.t AsyncEngine,
       Database.initalized self = false ->
       user_is_banned orm username (self, st)
       = (Raises (first_use_error orm st), (self, snd (session_close orm st))).
Proof.
  split; [apply with_Database_raises|].
  intros self Hinit. unfold user_is_banned.
  apply (session_fails _ _ self st Hinit).
Qed.

(** C4 at a failing input. Registering a name twice and looking it up, on
    any database name: [Database(name)] raises [NoSuchModuleError] and no
    call is made.  On an object that exists and was not initialised
    [new_bot_account] raises on entering the session, before the account is
    built, merged or committed, and so does [get_bot]: no account record
    is written and none is returned. *)
Theorem new_bot_account_never_registers (name username secret secret2 : str)
        (accountID accountID2 : Z) (st : St) :
  with_Database load_dialect name
    (_ <~ new_bot_account orm username secret accountID ;;
     _ <~ new_bot_account orm username secret2 accountID2 ;;
     get_bot orm username) st
  = (Raises NoSuchModuleError, st)
  /\ forall self : Database.t AsyncEngine,
       Database.initalized self = false ->
       new_bot_account orm username secret accountID (self, st)
       = (Raises (first_use_error orm st), (self, snd (session_close orm st)))
       /\ get_bot orm username (self, st)
          = (Raises (first_use_error orm st), (self, snd (session_close orm st))).
Proof.
  split; [apply with_Database_raises|].
  intros self Hinit. unfold new_bot_account, get_bot.
  split; apply (session_fails _ _ self st Hinit).
Qed.


End DatabaseProperties.

Lemma issue_ban_never_stores_witness :
  (_ <~ issue_ban (fun u => Returns (Some u)) idle_orm
          (slit "1_2_first (alice)") None (slit "1.2.3.4") ;;
   issue_ban (fun u => Returns (Some u)) idle_orm
     (slit "1_2_second (bob)") None (slit "1.2.3.4"))
    (Database.mk (slit "bots.db") tt false, tt)
  = (Raises TypeError, (Database.mk (slit "bots.db") tt false, tt)).
Proof.
  destruct (issue_ban_never_stores (fun _ => Returns tt)
              (fun u => Returns (Some u)) idle_orm (slit "bots.db")
              (slit "1_2_first (alice)") (slit "1_2_second (bob)")
              (slit "1.2.3.4") tt) as [_ H].
  exact (H (Database.mk (slit "bots.db") tt false) eq_refl).
Defined.

Lemma user_is_banned_never_answers_witness :
  user_is_banned idle_orm (slit "alice")
    (Database.mk (slit "bots.db") tt false, tt)
  = (Raises TypeError, (Database.mk (slit "bots.db") tt false, tt)).
Proof.
  destruct (user_is_banned_never_answers (fun _ => Returns tt)
              (fun u => Returns (Some u)) idle_orm (slit "bots.db")
              (slit "x_y_reason (alice)") (slit "9.9.9.9") (slit "alice") tt)
    as [_ H].
  exact (H (Database.mk (slit "bots.db") tt false) eq_refl).
Defined.

Lemma new_bot_account_never_registers_witness :
  new_bot_account idle_orm (slit "bob") (slit "pw1") 5
    (Database.mk (slit "bots.db") tt false, tt)
  = (Raises TypeError, (Database.mk (slit "bots.db") tt false, tt))
  /\ get_bot idle_orm (slit "bob") (Database.mk (slit "bots.db") tt false, tt)
     = (Raises TypeError, (Database.mk (slit "bots.db") tt false, tt)).
Proof.
  destruct (new_bot_account_never_registers (fun _ => Returns tt) idle_orm
              (slit "bots.db") (slit "bob") (slit "pw1") (slit "pw2") 5 6 tt)
    as [_ H].
  exact (H (Database.mk (slit "bots.db") tt false) eq_refl).
Defined.


(** * Further properties of the code *)

(** *** cyclic_xor, position by position *)

Lemma skipn_nth_cons (A : Type) (l : list A) (j : nat) (x0 : A) :
  (j < List.length l)%nat -> skipn j l = nth j l x0 :: skipn (S j) l.
Proof.
  revert j. induction l as [|a l IH]; intros j Hj; simpl in Hj; [lia|].
  destruct j as [|j]; [reflexivity|].
  simpl. apply IH. lia.
Qed.

Lemma zip_cycle_nth (key : bytes) :
  key <> [] ->
  forall (data : bytes) (j : nat),
    (j <= List.length key)%nat ->
    List.length (zip_cycle data (skipn j key) key) = List.length data
    /\ forall i, (i < List.length data)%nat ->
         nth i (zip_cycle data (skipn j key) key) (x00, x00)
         = (nth i data x00, nth ((j + i) mod List.length key) key x00).
Proof.
  intros Hkey.
  assert (Hlen : (0 < List.length key)%nat)
    by (destruct key; [contradiction|simpl; lia]).
  induction data as [|d data IH]; intros j Hj.
  - split; [reflexivity|]. intros i Hi. simpl in Hi. lia.
  - assert (Hstep : exists j', (j' < List.length key)%nat
                /\ (j' = j mod List.length key)%nat
                /\ zip_cycle (d :: data) (skipn j key) key
                   = (d, nth j' key x00) :: zip_cycle data (skipn (S j') key) key).
    { destruct (Nat.eq_dec j (List.length key)) as [->|Hne].
      - exists 0%nat. split; [exact Hlen|].
        split; [rewrite Nat.Div0.mod_same; reflexivity|].
        rewrite skipn_all. destruct key as [|c rest]; [contradiction|].
        reflexivity.
      - exists j. split; [lia|]. split; [rewrite Nat.mod_small; lia|].
        rewrite (skipn_nth_cons _ key j x00) by lia. reflexivity. }
    destruct Hstep as (j' & Hj' & Hmod & Hzip). rewrite Hzip.
    destruct (IH (S j')) as [IHlen IHnth]; [lia|].
    split; [cbn [List.length]; f_equal; exact IHlen|].
    intros [|i] Hi.
    + cbn [nth]. rewrite Nat.add_0_r, <- Hmod. reflexivity.
    + cbn [List.length] in Hi. cbn [nth]. rewrite IHnth by lia.
      f_equal. f_equal.
      rewrite <- (Nat.Div0.add_mod_idemp_l j (S i)), <- Hmod.
      f_equal. lia.
Qed.

Lemma bytes_of_xor_ints (l : list (byte * byte)) :
  exists out,
    bytes_of_ints (map xor_int l) = Returns out
    /\ List.length out = List.length l
    /\ forall i, (i < List.length l)%nat ->
         Byte.to_N (nth i out x00) = xor_int (nth i l (x00, x00)).
Proof.
  induction l as [|[d k] l (out & Hout & Hlen & Hnth)].
  - exists []. repeat split. intros i Hi. simpl in Hi. lia.
  - destruct (xor_int_byte d k) as (x & Hx & _).
    exists (x :: out). simpl. rewrite Hx, Hout. simpl.
    split; [reflexivity|]. split; [rewrite Hlen; reflexivity|].
    intros [|i] Hi.
    + apply Byte.to_of_N. exact Hx.
    + apply Hnth. lia.
Qed.

Lemma cyclic_xor_nth (data key : bytes) :
  key <> [] ->
  exists out,
    cyclic_xor data key = Returns out
    /\ List.length out = List.length data
    /\ forall i, (i < List.length data)%nat ->
         Byte.to_N (nth i out x00)
         = N.lxor (Byte.to_N (nth i data x00))
                  (Byte.to_N (nth (i mod List.length key) key x00)).
Proof.
  intros Hkey. unfold cyclic_xor.
  destruct (zip_cycle_nth key Hkey data 0 (Nat.le_0_l _)) as [Hzlen Hznth].
  simpl skipn in *.
  destruct (bytes_of_xor_ints (zip_cycle data key key))
    as (out & Hout & Hlen & Hnth).
  exists out. split; [exact Hout|]. split; [lia|].
  intros i Hi. rewrite Hnth by lia. rewrite Hznth by exact Hi. reflexivity.
Qed.

(** X1. With a non-empty key [cyclic_xor] returns as many bytes as it was
    given, and the byte at position [i] is the data byte at [i] xored with
    the key byte at [i mod len(key)]. *)
Theorem cyclic_xor_positions (data key : bytes) :
  key <> [] ->
  exists out,
    cyclic_xor data key = Returns out
    /\ List.length out = List.length data
    /\ forall i, (i < List.length data)%nat ->
         Byte.to_N (nth i out x00)
         = N.lxor (Byte.to_N (nth i data x00))
                  (Byte.to_N (nth (i mod List.length key) key x00)).
Proof. apply cyclic_xor_nth. Qed.

Lemma cyclic_xor_positions_witness :
  exists out,
    cyclic_xor (blit "abcde") (blit "xy") = Returns out
    /\ List.length out = 5%nat.
Proof.
  destruct (cyclic_xor_positions (blit "abcde") (blit "xy")) as (out & H & L & _);
    [discriminate|].
  exists out. split; [exact H|exact L].
Defined.

(** *** The shape of xor_encode's output *)

Lemma urlsafe_digit_char (v : N) :
  (v < 64)%N -> In (urlsafe_encode_translation (b64_digit v)) urlsafe_chars.
Proof.
  intros Hv.
  assert (H : existsb (Byte.eqb (urlsafe_encode_translation (b64_digit v)))
                      urlsafe_chars = true).
  { destruct v as [|p]; [vm_compute; reflexivity|].
    do 6 (try destruct p as [p|p|]); try lia; vm_compute; reflexivity. }
  apply existsb_exists in H. destruct H as (c & Hin & Heq).
  apply Byte.byte_dec_bl in Heq. subst c. exact Hin.
Qed.

Lemma urlsafe_pad_char : In (urlsafe_encode_translation b64_pad) urlsafe_chars.
Proof. vm_compute. do 64 right. left. reflexivity. Qed.

Lemma urlsafe_b64encode_shape (x : bytes) :
  List.length (urlsafe_b64encode x) = (4 * ((List.length x + 2) / 3))%nat
  /\ Forall (fun ch => In ch urlsafe_chars) (urlsafe_b64encode x).
Proof.
  unfold urlsafe_b64encode.
  induction x as [|x0|x0 x1|x0 x1 x2 l [IHlen IHall]] using list_ind3.
  - split; [reflexivity|constructor].
  - pose proof (Byte.to_N_bounded x0) as H0.
    split; [reflexivity|]. cbn [b64encode map].
    do 2 (constructor; [apply urlsafe_digit_char; divmod|]).
    do 2 (constructor; [apply urlsafe_pad_char|]). constructor.
  - pose proof (Byte.to_N_bounded x0) as H0.
    pose proof (Byte.to_N_bounded x1) as H1.
    split; [reflexivity|]. cbn [b64encode map].
    do 3 (constructor; [apply urlsafe_digit_char; divmod|]).
    constructor; [apply urlsafe_pad_char|]. constructor.
  - pose proof (Byte.to_N_bounded x0) as H0.
    pose proof (Byte.to_N_bounded x1) as H1.
    pose proof (Byte.to_N_bounded x2) as H2.
    cbn [b64encode map List.length]. split.
    + rewrite IHlen.
      replace (S (S (S (List.length l))) + 2)%nat
        with (List.length l + 2 + 1 * 3)%nat by lia.
      rewrite Nat.div_add by lia. lia.
    + do 4 (constructor; [apply urlsafe_digit_char; divmod|]).
      exact IHall.
Qed.

Lemma xor_encode_result (data key : bytes) :
  exists x c,
    cyclic_xor data key = Returns x
    /\ xor_encode data key = Returns c
    /\ List.length c = (4 * ((List.length x + 2) / 3))%nat
    /\ Forall (fun ch => In ch urlsafe_chars) c
    /\ (key <> [] -> List.length x = List.length data).
Proof.
  assert (Hx : exists x, cyclic_xor data key = Returns x
                         /\ (key <> [] -> List.length x = List.length data)).
  { destruct key as [|k0 key].
    - exists []. split; [destruct data; reflexivity|]. intros H. contradiction.
    - destruct (cyclic_xor_nth data (k0 :: key)) as (x & Hx & Hlen & _);
        [discriminate|].
      exists x. split; [exact Hx|]. intros _. exact Hlen. }
  destruct Hx as (x & Hx & Hlen).
  exists x, (urlsafe_b64encode x).
  destruct (urlsafe_b64encode_shape x) as [Hl Hall].
  unfold xor_encode. rewrite Hx. cbn [bind].
  repeat split; assumption.
Qed.

(** X2. [xor_encode] never raises; its result is URL-safe base64 text: only
    letters, digits, [-], [_] and [=], four characters for every three
    bytes of the xored data, which with a non-empty key is as long as the
    input. *)
Theorem xor_encode_shape (data key : bytes) :
  exists x c,
    cyclic_xor data key = Returns x
    /\ xor_encode data key = Returns c
    /\ List.length c = (4 * ((List.length x + 2) / 3))%nat
    /\ Forall (fun ch => In ch urlsafe_chars) c
    /\ (key <> [] -> List.length x = List.length data).
Proof. apply xor_encode_result. Qed.

Lemma xor_encode_shape_witness :
  exists c, xor_encode (blit "digest") (blit "29481") = Returns c
            /\ List.length c = 8%nat.
Proof.
  destruct (xor_encode_shape (blit "digest") (blit "29481"))
    as (x & c & Hx & Hc & Hlen & _ & Hkey).
  exists c. split; [exact Hc|].
  rewrite Hlen, Hkey by discriminate. reflexivity.
Defined.

(** *** str.encode("utf-8") and encode *)

Lemma bytes_of_ints_app (l1 l2 : list N) (b1 b2 : bytes) :
  bytes_of_ints l1 = Returns b1 -> bytes_of_ints l2 = Returns b2 ->
  bytes_of_ints (l1 ++ l2) = Returns (b1 ++ b2).
Proof.
  revert b1. induction l1 as [|n l1 IH]; intros b1 H1 H2; simpl in *.
  - injection H1 as <-. exact H2.
  - destruct (Byte.of_N n) as [x|]; [|discriminate H1].
    destruct (bytes_of_ints l1) as [r|e] eqn:E; [|discriminate H1].
    simpl in H1. injection H1 as <-.
    rewrite (IH r eq_refl H2). reflexivity.
Qed.

Lemma bytes_of_ints_small (l : list N) :
  Forall (fun n => (n < 256)%N) l -> exists x, bytes_of_ints l = Returns x.
Proof.
  induction 1 as [|n l Hn _ [x Hx]]; [exists []; reflexivity|].
  simpl. destruct (Byte.of_N n) as [y|] eqn:E.
  - rewrite Hx. exists (y :: x). reflexivity.
  - apply Byte.of_N_None_iff in E. lia.
Qed.

Lemma utf8_of_codepoint_encodable (u : codepoint) :
  encodable u ->
  exists ints, utf8_of_codepoint u = Returns ints
               /\ Forall (fun n => (n < 256)%N) ints.
Proof.
  unfold encodable, utf8_of_codepoint. intros Hu.
  destruct (N.ltb_spec u 128); [eexists; split; [reflexivity|]|].
  { repeat constructor. lia. }
  destruct (N.ltb_spec u 2048); [eexists; split; [reflexivity|]|].
  { repeat constructor; divmod. }
  destruct (N.leb_spec 55296 u); destruct (N.leb_spec u 57343); cbn [andb];
    try lia.
  - destruct (N.ltb_spec u 65536); eexists; (split; [reflexivity|]);
      repeat constructor; divmod.
  - destruct (N.ltb_spec u 65536); eexists; (split; [reflexivity|]);
      repeat constructor; divmod.
Qed.

Lemma encode_utf8_encodable (x : str) :
  Forall encodable x -> exists out, encode_utf8 x = Returns out.
Proof.
  intros Hx. unfold encode_utf8.
  assert (H : exists ints, utf8_ints x = Returns ints
                           /\ Forall (fun n => (n < 256)%N) ints).
  { induction Hx as [|u x Hu _ (ints & Hi & Hs)].
    - exists []. split; [reflexivity|constructor].
    - destruct (utf8_of_codepoint_encodable u Hu) as (us & Hus & Hsmall).
      exists (us ++ ints). simpl. rewrite Hus, Hi. simpl.
      split; [reflexivity|]. apply Forall_app. split; assumption. }
  destruct H as (ints & Hi & Hs). rewrite Hi. cbn [bind].
  apply bytes_of_ints_small. exact Hs.
Qed.

Lemma classic_surrogate (u : codepoint) : surrogate u \/ ~ surrogate u.
Proof. unfold surrogate. lia. Qed.

Lemma encode_utf8_surrogate (x : str) :
  Forall (fun u => (u < 1114112)%N) x -> Exists surrogate x ->
  encode_utf8 x = Raises UnicodeEncodeError.
Proof.
  intros Hvalid Hsur. unfold encode_utf8.
  assert (H : utf8_ints x = Raises UnicodeEncodeError).
  { induction x as [|u x IH]; [inversion Hsur|].
    inversion Hvalid as [|? ? Hu Hx]; subst.
    simpl.
    destruct (classic_surrogate u) as [Hs|Hs].
    - unfold surrogate in Hs. unfold utf8_of_codepoint.
      destruct (N.ltb_spec u 128); [lia|].
      destruct (N.ltb_spec u 2048); [lia|].
      destruct (N.leb_spec 55296 u); [|lia].
      destruct (N.leb_spec u 57343); [|lia]. reflexivity.
    - assert (He : encodable u) by (unfold encodable, surrogate in *; lia).
      destruct (utf8_of_codepoint_encodable u He) as (us & Hus & _).
      rewrite Hus. cbn [bind]. rewrite IH; [reflexivity|exact Hx|].
      inversion Hsur; subst; [contradiction|assumption]. }
  rewrite H. reflexivity.
Qed.

Lemma encode_utf8_ascii (x : str) :
  Forall (fun u => (u < 128)%N) x ->
  exists out, encode_utf8 x = Returns out /\ map Byte.to_N out = x.
Proof.
  intros Hx. unfold encode_utf8.
  assert (Hints : utf8_ints x = Returns x).
  { induction Hx as [|u x Hu _ IH]; [reflexivity|].
    simpl. unfold utf8_of_codepoint.
    destruct (N.ltb_spec u 128); [|lia]. cbn [bind]. rewrite IH. reflexivity. }
  rewrite Hints. cbn [bind].
  induction Hx as [|u x Hu Hx IH]; [exists []; split; reflexivity|].
  assert (Hx' : utf8_ints x = Returns x).
  { clear IH Hints. induction Hx as [|v x Hv _ IH]; [reflexivity|].
    simpl. unfold utf8_of_codepoint.
    destruct (N.ltb_spec v 128); [|lia]. cbn [bind]. rewrite IH. reflexivity. }
  destruct (IH Hx') as (out & Hout & Hmap).
  simpl. destruct (Byte.of_N u) as [y|] eqn:E.
  - rewrite Hout. exists (y :: out). split; [reflexivity|].
    simpl. rewrite Hmap. apply Byte.to_of_N in E. rewrite E. reflexivity.
  - apply Byte.of_N_None_iff in E. lia.
Qed.

(** X3. [encode] passes a bytes object through unchanged and encodes a
    string as UTF-8: it returns for every string of Unicode scalar values,
    byte for code point when the string is ASCII, and raises
    [UnicodeEncodeError] when the string holds a surrogate. *)
Theorem encode_behaviour (x : bytes) (y : str) :
  encode (inr x) = Returns x
  /\ (Forall encodable y -> exists out, encode (inl y) = Returns out)
  /\ (Forall (fun u => (u < 128)%N) y ->
      exists out, encode (inl y) = Returns out /\ map Byte.to_N out = y)
  /\ (Forall (fun u => (u < 1114112)%N) y -> Exists surrogate y ->
      encode (inl y) = Raises UnicodeEncodeError).
Proof.
  split; [reflexivity|].
  split; [apply encode_utf8_encodable|].
  split; [apply encode_utf8_ascii|apply encode_utf8_surrogate].
Qed.

Lemma encode_behaviour_witness :
  (exists out, encode (inl (slit "bob")) = Returns out
               /\ map Byte.to_N out = slit "bob")
  /\ encode (inl [98; 55357; 98]%N) = Raises UnicodeEncodeError
  /\ (exists out, encode (inl [98; 233; 8364; 128512]%N) = Returns out).
Proof.
  split; [|split].
  - apply (encode_behaviour [] (slit "bob")).
    vm_compute. repeat constructor.
  - apply (encode_behaviour [] [98; 55357; 98]%N).
    + repeat constructor.
    + apply Exists_cons_tl, Exists_cons_hd. unfold surrogate. lia.
  - apply (encode_behaviour [] [98; 233; 8364; 128512]%N).
    unfold encodable. repeat constructor; lia.
Defined.

(** *** generate_chk and comment_chk *)

Lemma hex_digits_ascii (x : str) :
  Forall (fun u => In u (slit "0123456789abcdef")) x ->
  Forall (fun u => (u < 128)%N) x.
Proof.
  apply Forall_impl. intros u Hu. vm_compute in Hu.
  repeat (destruct Hu as [Hu|Hu]; [subst u; reflexivity|]). destruct Hu.
Qed.

Lemma hexdigest_bytes (msg : bytes) :
  exists digest,
    encode_utf8 (sha1_hexdigest msg) = Returns digest
    /\ map Byte.to_N digest = sha1_hexdigest msg
    /\ List.length digest = 40%nat.
Proof.
  destruct (sha1_hexdigest_shape msg) as [Hlen Hall].
  destruct (encode_utf8_ascii _ (hex_digits_ascii _ Hall)) as (digest & Hd & Hm).
  exists digest. split; [exact Hd|]. split; [exact Hm|].
  rewrite <- Hlen, <- Hm, length_map. reflexivity.
Qed.

Lemma generate_chk_result (value key salt : bytes) :
  key <> [] ->
  exists chk digest x,
    generate_chk value key salt = Returns chk
    /\ encode_utf8 (sha1_hexdigest (value ++ salt)) = Returns digest
    /\ map Byte.to_N digest = sha1_hexdigest (value ++ salt)
    /\ cyclic_xor digest key = Returns x
    /\ cyclic_xor x key = Returns digest
    /\ chk = urlsafe_b64encode x
    /\ List.length x = 40%nat.
Proof.
  intros Hkey.
  destruct (hexdigest_bytes (value ++ salt)) as (digest & Hd & Hm & Hlen).
  destruct (cyclic_xor_twice digest key Hkey) as (x & Hx & Hback).
  destruct (xor_encode_result digest key)
    as (x' & c & Hx' & Hc & _ & _ & Hxlen).
  rewrite Hx in Hx'. injection Hx' as <-.
  exists (urlsafe_b64encode x), digest, x.
  unfold generate_chk, xor_encode. rewrite Hd. cbn [bind]. rewrite Hx.
  cbn [bind]. repeat split; try assumption.
  rewrite (Hxlen Hkey). exact Hlen.
Qed.

Lemma generate_chk_length (value key salt : bytes) :
  key <> [] ->
  exists chk,
    generate_chk value key salt = Returns chk
    /\ List.length chk = 56%nat
    /\ Forall (fun ch => In ch urlsafe_chars) chk.
Proof.
  intros Hkey.
  destruct (generate_chk_result value key salt Hkey)
    as (chk & digest & x & Hchk & _ & _ & _ & _ & -> & Hlen).
  exists (urlsafe_b64encode x). split; [exact Hchk|].
  destruct (urlsafe_b64encode_shape x) as [Hl Hall].
  split; [rewrite Hl, Hlen; reflexivity|exact Hall].
Qed.

(** X4. With a non-empty key [generate_chk] never raises and returns 56
    characters of URL-safe base64 text, whatever the value and the salt. *)
Theorem generate_chk_shape (value key salt : bytes) :
  key <> [] ->
  exists chk,
    generate_chk value key salt = Returns chk
    /\ List.length chk = 56%nat
    /\ Forall (fun ch => In ch urlsafe_chars) chk.
Proof. apply generate_chk_length. Qed.

Lemma generate_chk_shape_witness :
  exists chk,
    generate_chk (blit "bob") (blit "29481") (blit "xPT6iUrtws0J") = Returns chk
    /\ List.length chk = 56%nat.
Proof.
  destruct (generate_chk_shape (blit "bob") (blit "29481") (blit "xPT6iUrtws0J"))
    as (chk & H & L & _); [discriminate|].
  exists chk. split; [exact H|exact L].
Defined.

(** X5. With a non-empty key the checksum can be opened again: decoding it
    from URL-safe base64 and xoring with the key gives the 40 ASCII
    characters of the hexadecimal SHA-1 digest of [value + salt]. *)
Theorem generate_chk_opens (value key salt : bytes) :
  key <> [] ->
  exists chk digest,
    generate_chk value key salt = Returns chk
    /\ map Byte.to_N digest = sha1_hexdigest (value ++ salt)
    /\ (x <- urlsafe_b64decode chk ;; cyclic_xor x key) = Returns digest.
Proof.
  intros Hkey.
  destruct (generate_chk_result value key salt Hkey)
    as (chk & digest & x & Hchk & _ & Hm & _ & Hback & -> & _).
  exists (urlsafe_b64encode x), digest.
  split; [exact Hchk|]. split; [exact Hm|].
  rewrite urlsafe_b64_roundtrip. exact Hback.
Qed.

Lemma generate_chk_opens_witness :
  exists chk digest,
    generate_chk (blit "abc") (blit "k") [] = Returns chk
    /\ map Byte.to_N digest = slit "a9993e364706816aba3e25717850c26c9cd0d89d"
    /\ (x <- urlsafe_b64decode chk ;; cyclic_xor x (blit "k")) = Returns digest.
Proof.
  destruct (generate_chk_opens (blit "abc") (blit "k") [])
    as (chk & digest & H1 & H2 & H3); [discriminate|].
  exists chk, digest. split; [exact H1|]. split; [|exact H3].
  rewrite H2. vm_compute. reflexivity.
Defined.

Lemma slit_encodable (x : string) : Forall encodable (slit x).
Proof.
  unfold slit. apply Forall_forall. intros u Hu.
  apply in_map_iff in Hu. destruct Hu as (y & <- & _).
  pose proof (Byte.to_N_bounded y). unfold encodable. lia.
Qed.

Lemma py_format_int (z : Z) :
  (Z.abs z < int_str_limit)%Z ->
  exists digits, py_format (PyInt z) = Returns digits /\ Forall encodable digits.
Proof.
  intros Hz. unfold py_format.
  destruct (Z.leb_spec int_str_limit (Z.abs z)) as [H|H]; [lia|].
  eexists. split; [reflexivity|apply slit_encodable].
Qed.

(** X6. For a user name and a content made of Unicode scalar values and
    integers [id], [percentage] and [comment_type] of at most 4300 decimal
    digits, [comment_chk] does not raise and returns 56 characters of
    URL-safe base64 text; an [id] of more digits raises [ValueError]. *)
Theorem comment_chk_returns (username content : str) (id percentage comment_type : Z) :
  Forall encodable username -> Forall encodable content ->
  ((Z.abs id < int_str_limit)%Z ->
   (Z.abs percentage < int_str_limit)%Z ->
   (Z.abs comment_type < int_str_limit)%Z ->
   exists chk,
     comment_chk (PyStr username) (PyStr content) (PyInt id) (PyInt percentage)
                 (PyInt comment_type) = Returns chk
     /\ List.length chk = 56%nat
     /\ Forall (fun ch => In ch urlsafe_chars) chk)
  /\ ((int_str_limit <= Z.abs id)%Z ->
      comment_chk (PyStr username) (PyStr content) (PyInt id) (PyInt percentage)
                  (PyInt comment_type) = Raises ValueError).
Proof.
  intros Hu Hc. split.
  - intros Hi Hp Ht. unfold comment_chk.
    destruct (py_format_int id Hi) as (di & Hdi & Hei).
    destruct (py_format_int percentage Hp) as (dp & Hdp & Hep).
    destruct (py_format_int comment_type Ht) as (dt & Hdt & Het).
    rewrite Hdi, Hdp, Hdt. cbn [py_format bind].
    destruct (encode_utf8_encodable (username ++ content ++ di ++ dp ++ dt))
      as [value Hvalue].
    { repeat (apply Forall_app; split); assumption. }
    rewrite Hvalue. cbn [bind].
    apply generate_chk_length. discriminate.
  - intros Hi. unfold comment_chk. cbn [py_format bind].
    destruct (Z.leb_spec int_str_limit (Z.abs id)) as [H|H]; [reflexivity|lia].
Qed.

Lemma comment_chk_returns_witness :
  (exists chk,
      comment_chk (PyStr (slit "bob")) (PyStr (slit "aGVsbG8=")) (PyInt 0)
                  (PyInt 0) (PyInt 0) = Returns chk
      /\ List.length chk = 56%nat)
  /\ comment_chk (PyStr (slit "bob")) (PyStr (slit "aGVsbG8="))
       (PyInt int_str_limit) (PyInt 0) (PyInt 0) = Raises ValueError.
Proof.
  split.
  - destruct (comment_chk_returns (slit "bob") (slit "aGVsbG8=") 0 0 0)
      as [H _]; try apply slit_encodable.
    destruct H as (chk & H & L & _); try (vm_compute; reflexivity).
    exists chk. split; [exact H|exact L].
  - destruct (comment_chk_returns (slit "bob") (slit "aGVsbG8=")
                int_str_limit 0 0) as [_ H]; try apply slit_encodable.
    apply H. vm_compute. discriminate.
Defined.

(** X7. The five fields are joined without separators, so moving text
    between the end of the user name and the start of the content does not
    change the checksum. *)
Theorem comment_chk_joins_fields (a b' c : str) (id percentage comment_type : pyval) :
  comment_chk (PyStr (a ++ b')) (PyStr c) id percentage comment_type
  = comment_chk (PyStr a) (PyStr (b' ++ c)) id percentage comment_type.
Proof.
  unfold comment_chk. cbn [py_format bind].
  destruct (py_format id) as [i|e]; [|reflexivity].
  destruct (py_format percentage) as [p|e]; [|reflexivity].
  destruct (py_format comment_type) as [t|e]; [|reflexivity].
  cbn [bind]. rewrite <- !app_assoc. reflexivity.
Qed.

(** *** fix_skid_proxy *)

Lemma contains_all_prefix (ip : str) :
  contains (slit "all://" ++ ip) (slit "://") = true.
Proof.
  change (slit "all://" ++ ip)
    with (97 :: 108 :: 108 :: 58 :: 47 :: 47 :: ip)%N.
  change (slit "://") with [58; 47; 47]%N.
  cbn. destruct ip; reflexivity.
Qed.

(** X8. The result of [fix_skid_proxy] always carries a [://]; an address
    that has one is left as it is, any other gets [all://] in front; fixing
    twice is fixing once. *)
Theorem fix_skid_proxy_scheme (ip : str) :
  contains (fix_skid_proxy ip) (slit "://") = true
  /\ fix_skid_proxy (fix_skid_proxy ip) = fix_skid_proxy ip
  /\ (contains ip (slit "://") = true -> fix_skid_proxy ip = ip)
  /\ (contains ip (slit "://") = false ->
      fix_skid_proxy ip = slit "all://" ++ ip).
Proof.
  assert (H : contains (fix_skid_proxy ip) (slit "://") = true).
  { unfold fix_skid_proxy.
    destruct (contains ip (slit "://")) eqn:E; cbn [negb];
      [exact E|apply contains_all_prefix]. }
  split; [exact H|]. split.
  - unfold fix_skid_proxy at 1. rewrite H. reflexivity.
  - unfold fix_skid_proxy. split; intros ->; reflexivity.
Qed.

Lemma fix_skid_proxy_scheme_witness :
  fix_skid_proxy (slit "socks5://1.2.3.4:1080") = slit "socks5://1.2.3.4:1080"
  /\ fix_skid_proxy (slit "1.2.3.4") = slit "all://1.2.3.4".
Proof.
  split.
  - apply (fix_skid_proxy_scheme (slit "socks5://1.2.3.4:1080")).
    vm_compute. reflexivity.
  - apply (fix_skid_proxy_scheme (slit "1.2.3.4")).
    vm_compute. reflexivity.
Defined.

(** *** parse_ban, the other way round *)

Lemma parse_ban_few_separators (raw_ban_str : str) :
  (count_occ N.eq_dec raw_ban_str (clit "_") < 2)%nat ->
  parse_ban raw_ban_str = Raises ValueError.
Proof.
  intros Hc. unfold parse_ban.
  pose proof (split_few_separators _ _ Hc) as Hlen.
  destruct (split (clit "_") 2 raw_ban_str) as [|a [|b' [|c' [|e l]]]];
    try reflexivity; simpl in Hlen; lia.
Qed.

Lemma two_separators (sep : codepoint) (x : str) :
  (2 <= count_occ N.eq_dec x sep)%nat ->
  exists f1 f2 rest,
    x = f1 ++ sep :: f2 ++ sep :: rest /\ ~ In sep f1 /\ ~ In sep f2.
Proof.
  intros Hc.
  pose proof (cut_at_spec sep x) as H1.
  destruct (cut_at sep x) as [f1 [post|]].
  - destruct H1 as [-> Hf1].
    pose proof (cut_at_spec sep post) as H2.
    destruct (cut_at sep post) as [f2 [rest|]].
    + destruct H2 as [-> Hf2]. exists f1, f2, rest. repeat split; assumption.
    + destruct H2 as [-> Hpost]. exfalso.
      rewrite count_occ_app in Hc.
      rewrite count_occ_cons_eq in Hc by reflexivity.
      pose proof (count_occ_notin _ _ Hf1) as E1.
      pose proof (count_occ_notin _ _ Hpost) as E2.
      unfold codepoint in *. lia.
  - destruct H1 as [_ Hx]. pose proof (count_occ_notin _ _ Hx) as E.
    unfold codepoint in *. lia.
Qed.

Lemma parse_ban_returns (f1 f2 rest : str) :
  ~ In (clit "_") f1 -> ~ In (clit "_") f2 ->
  exists r, parse_ban (f1 ++ clit "_" :: f2 ++ clit "_" :: rest) = Returns r.
Proof.
  intros H1 H2. rewrite (parse_ban_reason _ _ _ H1 H2). cbv zeta.
  destruct (_ && _); eexists; reflexivity.
Qed.

(** X9. [parse_ban] raises exactly when the text has fewer than two [_],
    and what it raises is [ValueError]; with two or more it returns. *)
Theorem parse_ban_raises_iff (raw_ban_str : str) :
  (parse_ban raw_ban_str = Raises ValueError
   <-> (count_occ N.eq_dec raw_ban_str (clit "_") < 2)%nat)
  /\ (forall e, parse_ban raw_ban_str = Raises e -> e = ValueError)
  /\ ((2 <= count_occ N.eq_dec raw_ban_str (clit "_"))%nat ->
      exists r, parse_ban raw_ban_str = Returns r).
Proof.
  assert (Hret : (2 <= count_occ N.eq_dec raw_ban_str (clit "_"))%nat ->
                 exists r, parse_ban raw_ban_str = Returns r).
  { intros Hc. destruct (two_separators _ _ Hc) as (f1 & f2 & rest & -> & H1 & H2).
    apply parse_ban_returns; assumption. }
  assert (Hcases : (count_occ N.eq_dec raw_ban_str (clit "_") < 2)%nat
                   \/ (2 <= count_occ N.eq_dec raw_ban_str (clit "_"))%nat)
    by lia.
  split; [split|split].
  - intros Hraise. destruct Hcases as [H|H]; [exact H|].
    destruct (Hret H) as [r Hr]. rewrite Hr in Hraise. discriminate Hraise.
  - apply parse_ban_few_separators.
  - intros e He. destruct Hcases as [H|H].
    + rewrite (parse_ban_few_separators _ H) in He. injection He as <-.
      reflexivity.
    + destruct (Hret H) as [r Hr]. rewrite Hr in He. discriminate He.
  - exact Hret.
Qed.

Lemma parse_ban_raises_iff_witness :
  parse_ban (slit "no separators here") = Raises ValueError
  /\ (exists r, parse_ban (slit "a_b_c_d") = Returns r).
Proof.
  split.
  - apply (parse_ban_raises_iff (slit "no separators here")).
    vm_compute. lia.
  - apply (parse_ban_raises_iff (slit "a_b_c_d")). vm_compute. lia.
Defined.

Lemma reason_user (pre user : str) :
  ~ In (clit "(") user ->
  let reason := pre ++ clit "(" :: user ++ [clit ")"] in
  (if endswith reason (slit ")") && negb (rfind reason (clit "(") =? -1)%Z
   then Returns (Some (slice reason (rfind reason (clit "(") + 1)
                                    (rfind reason (clit ")"))))
   else Returns None) = Returns (Some user).
Proof.
  intros Hnot reason. subst reason.
  assert (Hends : endswith (pre ++ clit "(" :: user ++ [clit ")"])
                           (slit ")") = true).
  { apply endswith_char. exists (pre ++ clit "(" :: user).
    rewrite <- app_assoc. reflexivity. }
  assert (Hopen : rfind (pre ++ clit "(" :: user ++ [clit ")"]) (clit "(")
                  = Z.of_nat (List.length pre)).
  { unfold rfind. rewrite rfind_from_last; [lia|].
    intros Hin. apply in_app_or in Hin.
    destruct Hin as [Hin|[Hin|[]]]; [contradiction|discriminate Hin]. }
  assert (Hclose : rfind (pre ++ clit "(" :: user ++ [clit ")"]) (clit ")")
                   = Z.of_nat (List.length (pre ++ [clit "("])
                               + List.length user)).
  { unfold rfind.
    replace (pre ++ clit "(" :: user ++ [clit ")"])
      with ((pre ++ clit "(" :: user) ++ clit ")" :: [])
      by (rewrite <- app_assoc; reflexivity).
    rewrite rfind_from_last by (intros []).
    rewrite !length_app. simpl. lia. }
  rewrite Hends, Hopen, Hclose.
  replace (Z.of_nat (List.length pre) =? -1)%Z with false
    by (symmetry; apply Z.eqb_neq; lia).
  cbn [andb negb]. do 2 f_equal.
  replace (Z.of_nat (List.length pre) + 1)%Z
    with (Z.of_nat (List.length (pre ++ [clit "("])))
    by (rewrite length_app; simpl; lia).
  replace (pre ++ clit "(" :: user ++ [clit ")"])
    with ((pre ++ [clit "("]) ++ user ++ [clit ")"])
    by (rewrite <- app_assoc; reflexivity).
  apply slice_between.
Qed.

Lemma reason_no_user (reason : str) :
  (forall pre, reason <> pre ++ [clit ")"]) \/ ~ In (clit "(") reason ->
  (if endswith reason (slit ")") && negb (rfind reason (clit "(") =? -1)%Z
   then Returns (Some (slice reason (rfind reason (clit "(") + 1)
                                    (rfind reason (clit ")"))))
   else Returns None) = Returns None.
Proof.
  intros [Hend|Hopen].
  - assert (H : endswith reason (slit ")") = false).
    { destruct (endswith reason (slit ")")) eqn:E; [|reflexivity].
      apply endswith_char in E. destruct E as [pre E].
      exfalso. exact (Hend pre E). }
    rewrite H. reflexivity.
  - apply rfind_absent_iff in Hopen. rewrite Hopen.
    rewrite andb_false_r. reflexivity.
Qed.

(** X10. Whatever [parse_ban] returns as the user is read off the text: the
    text is [f1 _ f2 _ pre ( user ) ws] with no [_] in the first two fields,
    no [(] in the user and nothing but whitespace after the closing [)]. *)
Theorem parse_ban_sound (raw_ban_str user : str) :
  parse_ban raw_ban_str = Returns (Some user) ->
  exists f1 f2 pre ws : str,
    raw_ban_str
    = f1 ++ clit "_" :: f2 ++ clit "_" :: pre ++ clit "(" :: user
         ++ clit ")" :: ws
    /\ ~ In (clit "_") f1 /\ ~ In (clit "_") f2
    /\ ~ In (clit "(") user
    /\ Forall (fun u => isspace u = true) ws.
Proof.
  intros Hparse.
  assert (Hc : (2 <= count_occ N.eq_dec raw_ban_str (clit "_"))%nat).
  { destruct (Nat.lt_ge_cases (count_occ N.eq_dec raw_ban_str (clit "_")) 2)
      as [H|H]; [|exact H].
    rewrite (parse_ban_few_separators _ H) in Hparse. discriminate Hparse. }
  destruct (two_separators _ _ Hc) as (f1 & f2 & rest & -> & H1 & H2).
  rewrite (parse_ban_reason _ _ _ H1 H2) in Hparse. cbv zeta in Hparse.
  destruct (rstrip_spec rest) as (ws & Hrest & Hws & _).
  destruct (reason_shapes (rstrip rest)) as [(pre & u & Hshape & Hu)|Hnone].
  - rewrite Hshape in Hparse.
    pose proof (reason_user pre u Hu) as Huser. cbv zeta in Huser.
    rewrite Huser in Hparse. injection Hparse as <-.
    exists f1, f2, pre, ws. split.
    + rewrite Hrest at 1. rewrite Hshape. rewrite <- !app_assoc.
      simpl. rewrite <- !app_assoc. reflexivity.
    + repeat split; assumption.
  - rewrite (reason_no_user _ Hnone) in Hparse. discriminate Hparse.
Qed.

Lemma parse_ban_sound_witness :
  exists f1 f2 pre ws : str,
    slit "1_2_Cheating detected (JohnDoe) "
    = f1 ++ clit "_" :: f2 ++ clit "_" :: pre ++ clit "(" :: slit "JohnDoe"
         ++ clit ")" :: ws.
Proof.
  destruct (parse_ban_sound (slit "1_2_Cheating detected (JohnDoe) ")
                            (slit "JohnDoe"))
    as (f1 & f2 & pre & ws & H & _); [vm_compute; reflexivity|].
  exists f1, f2, pre, ws. exact H.
Defined.

Lemma rstrip_spaces (ws : str) :
  Forall (fun u => isspace u = true) ws -> rstrip ws = [].
Proof.
  induction 1 as [|u ws Hu _ IH]; [reflexivity|].
  simpl. rewrite IH, Hu. reflexivity.
Qed.

Lemma rstrip_app_spaces (x ws : str) :
  Forall (fun u => isspace u = true) ws -> rstrip (x ++ ws) = rstrip x.
Proof.
  intros Hws. induction x as [|u x IH].
  - simpl. apply rstrip_spaces. exact Hws.
  - simpl. rewrite IH. reflexivity.
Qed.

Lemma spaces_no_separator (ws : str) :
  Forall (fun u => isspace u = true) ws -> ~ In (clit "_") ws.
Proof.
  intros Hws Hin. rewrite Forall_forall in Hws.
  specialize (Hws _ Hin). vm_compute in Hws. discriminate Hws.
Qed.

(** X11. Whitespace after the text does not matter: [parse_ban] gives the
    same outcome with and without it. *)
Theorem parse_ban_trailing_whitespace (raw_ban_str ws : str) :
  Forall (fun u => isspace u = true) ws ->
  parse_ban (raw_ban_str ++ ws) = parse_ban raw_ban_str.
Proof.
  intros Hws. pose proof (spaces_no_separator ws Hws) as Hsep.
  destruct (Nat.lt_ge_cases (count_occ N.eq_dec raw_ban_str (clit "_")) 2)
    as [Hc|Hc].
  - rewrite (parse_ban_few_separators _ Hc).
    apply parse_ban_few_separators.
    rewrite count_occ_app. pose proof (count_occ_notin _ _ Hsep) as E.
    unfold codepoint in *. lia.
  - destruct (two_separators _ _ Hc) as (f1 & f2 & rest & -> & H1 & H2).
    replace ((f1 ++ clit "_" :: f2 ++ clit "_" :: rest) ++ ws)
      with (f1 ++ clit "_" :: f2 ++ clit "_" :: (rest ++ ws))
      by (rewrite <- !app_assoc; simpl; rewrite <- !app_assoc; reflexivity).
    rewrite !(parse_ban_reason _ _ _ H1 H2). cbv zeta.
    rewrite (rstrip_app_spaces rest ws Hws). reflexivity.
Qed.

Lemma parse_ban_trailing_whitespace_witness :
  parse_ban (slit "1_2_Cheating detected (JohnDoe)" ++ [32; 9; 10; 160; 8195]%N)
  = Returns (Some (slit "JohnDoe")).
Proof.
  rewrite (parse_ban_trailing_whitespace
             (slit "1_2_Cheating detected (JohnDoe)") [32; 9; 10; 160; 8195]%N).
  - vm_compute. reflexivity.
  - repeat constructor.
Defined.

(** *** The Database class, call by call *)

Section DatabaseCalls.

Context {AsyncEngine St : Type}.
Variable load_dialect : str -> outcome AsyncEngine.
Variable urlparse_hostname : str -> outcome (option str).
Variable orm : Orm AsyncEngine St.

(** X12. [Database(name)] raises [NoSuchModuleError] for every name: the
    url it builds asks for a dialect called [aiosqlite], and there is
    none. *)
Theorem Database_always_raises (name : str) :
  Database_new load_dialect name = Raises NoSuchModuleError
  /\ forall engine, Database_new load_dialect name
                    <> Returns (Database.mk name engine false).
Proof.
  rewrite Database_new_raises. split; [reflexivity|discriminate].
Qed.

(** X13. [init_db] on an object that is not initialised never completes:
    [create_all()] is called without its bind, so the call raises, with
    [TypeError] unless closing the session raises; nothing but the closing
    of the session has run, and [initalized] is still [False]. *)
Theorem init_db_never_completes (self : Database.t AsyncEngine) (st : St) :
  Database.initalized self = false ->
  init_db orm (self, st)
  = (Raises (first_use_error orm st), (self, snd (session_close orm st)))
  /\ (forall u, fst (session_close orm st) = Returns u ->
                fst (init_db orm (self, st)) = Raises TypeError).
Proof.
  intros Hinit. rewrite (init_db_fails orm self st Hinit).
  split; [reflexivity|].
  intros u Hu. cbn [fst]. rewrite (first_use_error_TypeError orm st u Hu).
  reflexivity.
Qed.

(** X14. [issue_ban] enters the session before it looks at its arguments:
    on an object that is not initialised its outcome is the same for every
    text, cause and address, also for a text [parse_ban] rejects and for an
    address [urlparse] rejects. *)
Theorem issue_ban_session_first (self : Database.t AsyncEngine) (st : St)
        (text text' proxy proxy' : str) (caused_by caused_by' : option User.t) :
  Database.initalized self = false ->
  issue_ban urlparse_hostname orm text caused_by proxy (self, st)
  = issue_ban urlparse_hostname orm text' caused_by' proxy' (self, st)
  /\ issue_ban urlparse_hostname orm text caused_by proxy (self, st)
     = init_db orm (self, st).
Proof.
  intros Hinit. unfold issue_ban.
  rewrite !(session_fails orm _ _ self st Hinit).
  rewrite (init_db_fails orm self st Hinit). split; reflexivity.
Qed.

(** X15. No call repairs the object: each of the six methods, on an object
    that is not initialised, raises and leaves [initalized] at [False], so
    every later call starts from the same place. *)
Theorem methods_stay_uninitialised (self : Database.t AsyncEngine) (st : St)
        (username password text proxy : str) (accountID : Z)
        (caused_by : option User.t) :
  Database.initalized self = false ->
  let fails (A : Type) (call : SE (@world AsyncEngine St) A) :=
    exists e w', call (self, st) = (Raises e, w')
                 /\ Database.initalized (fst w') = false in
  fails _ (proxy_is_banned urlparse_hostname orm proxy)
  /\ fails _ (new_bot_account orm username password accountID)
  /\ fails _ (get_bot orm username)
  /\ fails _ (issue_ban urlparse_hostname orm text caused_by proxy)
  /\ fails _ (user_is_banned orm username)
  /\ fails _ (user_and_proxy_are_banned urlparse_hostname orm username proxy).
Proof.
  intros Hinit fails. subst fails. cbv beta.
  assert (Hsession : forall (A : Type) (body : SE St A),
             exists e w', session orm body (self, st) = (Raises e, w')
                          /\ Database.initalized (fst w') = false).
  { intros A body. rewrite (session_fails orm _ body self st Hinit).
    eexists _, _. split; [reflexivity|exact Hinit]. }
  assert (Hproxy : exists e w',
             proxy_is_banned urlparse_hostname orm proxy (self, st)
             = (Raises e, w') /\ Database.initalized (fst w') = false).
  { unfold proxy_is_banned, sbind at 1, lift.
    destruct (urlparse_hostname (fix_skid_proxy proxy)) as [host|e].
    - apply Hsession.
    - eexists _, _. split; [reflexivity|exact Hinit]. }
  split; [exact Hproxy|].
  split; [apply Hsession|]. split; [apply Hsession|].
  split; [apply Hsession|]. split; [apply Hsession|].
  destruct Hproxy as (e & w' & Hp & Hw').
  unfold user_and_proxy_are_banned, sbind at 1. rewrite Hp.
  eexists _, _. split; [reflexivity|exact Hw'].
Qed.

(** X16. [proxy_is_banned] parses the address before it opens a session:
    an error of [urlparse] comes out as it is and nothing at all has
    changed, on any object; on an object that is not initialised an address
    that parses ends in the error of the first use. *)
Theorem proxy_is_banned_parses_first (proxy : str) (w : @world AsyncEngine St) :
  (forall e, urlparse_hostname (fix_skid_proxy proxy) = Raises e ->
             proxy_is_banned urlparse_hostname orm proxy w = (Raises e, w))
  /\ (forall host, urlparse_hostname (fix_skid_proxy proxy) = Returns host ->
        Database.initalized (fst w) = false ->
        proxy_is_banned urlparse_hostname orm proxy w
        = (Raises (first_use_error orm (snd w)),
           (fst w, snd (session_close orm (snd w))))).
Proof.
  split.
  - intros e He. unfold proxy_is_banned, sbind at 1, lift. rewrite He.
    reflexivity.
  - intros host Hhost Hinit. destruct w as [self st]. cbn [fst snd] in *.
    unfold proxy_is_banned, sbind at 1, lift. rewrite Hhost.
    apply (session_fails orm _ _ self st Hinit).
Qed.

End DatabaseCalls.

Lemma init_db_never_completes_witness :
  init_db idle_orm (Database.mk (slit "bots.db") tt false, tt)
  = (Raises TypeError, (Database.mk (slit "bots.db") tt false, tt)).
Proof.
  destruct (init_db_never_completes idle_orm
              (Database.mk (slit "bots.db") tt false) tt eq_refl) as [H _].
  exact H.
Defined.

Lemma issue_ban_session_first_witness :
  issue_ban (fun _ => Raises ValueError) idle_orm (slit "onlyonesep_reason")
    None (slit "http://[::1") (Database.mk (slit "bots.db") tt false, tt)
  = (Raises TypeError, (Database.mk (slit "bots.db") tt false, tt)).
Proof.
  destruct (issue_ban_session_first (fun _ => Raises ValueError) idle_orm
              (Database.mk (slit "bots.db") tt false) tt
              (slit "onlyonesep_reason") (slit "a_b_c")
              (slit "http://[::1") (slit "1.2.3.4") None None eq_refl)
    as [_ H].
  rewrite H. reflexivity.
Defined.

Lemma methods_stay_uninitialised_witness :
  exists e w',
    get_bot idle_orm (slit "bob") (Database.mk (slit "bots.db") tt false, tt)
    = (Raises e, w')
    /\ Database.initalized (fst w') = false.
Proof.
  destruct (methods_stay_uninitialised (fun u => Returns (Some u)) idle_orm
              (Database.mk (slit "bots.db") tt false) tt
              (slit "bob") (slit "pw") (slit "a_b_c") (slit "1.2.3.4") 5 None
              eq_refl) as (_ & _ & H & _).
  exact H.
Defined.

Lemma proxy_is_banned_parses_first_witness :
  proxy_is_banned (fun _ => Raises ValueError) idle_orm (slit "http://[::1")
    (Database.mk (slit "bots.db") tt false, tt)
  = (Raises ValueError, (Database.mk (slit "bots.db") tt false, tt))
  /\ proxy_is_banned (fun u => Returns (Some u)) idle_orm (slit "1.2.3.4")
       (Database.mk (slit "bots.db") tt false, tt)
     = (Raises TypeError, (Database.mk (slit "bots.db") tt false, tt)).
Proof.
  split.
  - apply (proxy_is_banned_parses_first (fun _ => Raises ValueError) idle_orm
             (slit "http://[::1") (Database.mk (slit "bots.db") tt false, tt)).
    reflexivity.
  - destruct (proxy_is_banned_parses_first (fun u => Returns (Some u)) idle_orm
                (slit "1.2.3.4") (Database.mk (slit "bots.db") tt false, tt))
      as [_ H].
    apply (H (Some (fix_skid_proxy (slit "1.2.3.4")))); reflexivity.
Defined.
